(** * POW-1.1: proof-of-work search and RSA-PSS commitment signing

    A shallow embedding of [pow_mining.py] and [rsa_signature.py].

    - Python [bytes] values are lists of integers in [0, 256).
    - Python [int] is [Z] (arguments) or [N] (the nonce, never negative).
    - A Python [str] is modelled twice.  The functions of the two files are
      first written on encoded text: a [string] holds the bytes of the UTF-8
      encoding of a [str], so that [str.encode] is the conversion to a byte
      list, and ['0' * n] is the repeated text.  This is the code on the
      inputs on which neither operation raises.  Module [Py] then writes the
      same functions on [str] values themselves, sequences of code points,
      with the two operations as Python has them: [str.encode] raises
      [UnicodeEncodeError] on a lone surrogate, and ['0' * n] raises
      [OverflowError] when [n] does not fit a machine index and
      [MemoryError] when the text cannot be allocated.  Where nothing is
      raised the functions of [Py] return what the functions on encoded text
      return ([Py_pow_mining_text], [Py_find_pow_hash_text],
      [Py_sign_message_text], [Py_verify_signature_text]).
    - [hashlib.sha256] follows FIPS 180-4; the RSA backend of the
      [cryptography] package follows RFC 8017 (RSASSA-PSS, MGF1) as OpenSSL
      implements it, and key generation builds the key from the two primes
      the library drew.  The model is tested against FIPS 180-4 vectors and
      against keys and signatures made by OpenSSL.
    - What the library draws at random (the salt, the primes) is an argument
      of the function that draws it.
    - The unbounded [while True] loops take a fuel argument; a run that
      exhausts every fuel is a run that does not return. *)

From Stdlib Require Import ZArith NArith List String Ascii Bool Lia.
From Stdlib Require Import DecimalString DecimalN Zpow_facts FinFun Zcong Zmod.
Import ListNotations.

Local Open Scope Z_scope.

(** ** Bytes and strings *)

Definition bytes := list Z.

Definition is_byte (b : Z) : Prop := 0 <= b < 256.

Definition byte_of_ascii (c : ascii) : Z := Z.of_N (N_of_ascii c).

Definition ascii_of_byte (b : Z) : ascii := ascii_of_N (Z.to_N b).

(** [s.encode()] / [s.encode('utf-8')] on encoded text, and the text that a
    byte list encodes.  [Py.encode] is the operation on a [str], with its
    exception. *)
Definition encode (s : string) : bytes :=
  List.map byte_of_ascii (list_ascii_of_string s).

Definition text_of_bytes (bs : bytes) : string :=
  string_of_list_ascii (List.map ascii_of_byte bs).

(** ['0' * n] where Python returns a text: the string repeated [n] times,
    empty when [n <= 0].  [Py.mul] has the exceptions of the operation. *)
Fixpoint str_repeat (s : string) (n : nat) : string :=
  match n with
  | O => EmptyString
  | S n' => (s ++ str_repeat s n')%string
  end.

Definition str_mul (s : string) (n : Z) : string := str_repeat s (Z.to_nat n).

(** [s.startswith(t)] *)
Definition startswith (s t : string) : bool := String.prefix t s.

(** [f"{n}"] for a non-negative [int]: its decimal text. *)
Definition decimal (n : N) : string := NilZero.string_of_uint (N.to_uint n).

(** ** SHA-256 (FIPS 180-4), the function behind [hashlib.sha256] *)

Module SHA256.

Definition w32 : Z := 4294967296.

Definition add32 (a b : Z) : Z := (a + b) mod w32.

Definition shr (n x : Z) : Z := Z.shiftr x n.

Definition rotr (n x : Z) : Z :=
  Z.lor (Z.shiftr x n) (Z.shiftl x (32 - n) mod w32).

Definition not32 (x : Z) : Z := Z.lxor x (w32 - 1).

Definition Ch (x y z : Z) : Z := Z.lxor (Z.land x y) (Z.land (not32 x) z).

Definition Maj (x y z : Z) : Z :=
  Z.lxor (Z.lxor (Z.land x y) (Z.land x z)) (Z.land y z).

Definition Sigma0 (x : Z) : Z := Z.lxor (Z.lxor (rotr 2 x) (rotr 13 x)) (rotr 22 x).
Definition Sigma1 (x : Z) : Z := Z.lxor (Z.lxor (rotr 6 x) (rotr 11 x)) (rotr 25 x).
Definition sigma0 (x : Z) : Z := Z.lxor (Z.lxor (rotr 7 x) (rotr 18 x)) (shr 3 x).
Definition sigma1 (x : Z) : Z := Z.lxor (Z.lxor (rotr 17 x) (rotr 19 x)) (shr 10 x).

(** The constants of FIPS 180-4 are fractional parts of roots of the first
    primes: the first 32 bits of the fractional part of the [k]-th root of
    [p] are [floor (root k (p * 2^(32k))) mod 2^32]. *)
Definition trial_prime (p : Z) : bool :=
  forallb (fun d => negb (p mod Z.of_nat d =? 0)) (seq 2 (Z.to_nat p - 2)).

Definition first_primes (n : nat) : list Z :=
  firstn n (filter trial_prime (List.map Z.of_nat (seq 2 400))).

(** Bisection for the integer [k]-th root of [x], between [lo] and [hi]. *)
Fixpoint root_search (fuel : nat) (k x lo hi : Z) : Z :=
  match fuel with
  | O => lo
  | S fuel' =>
      let mid := (lo + hi) / 2 in
      if mid ^ k <=? x then root_search fuel' k x mid hi
      else root_search fuel' k x lo mid
  end.

Definition frac_root32 (k p : Z) : Z :=
  root_search 40 k (p * 2 ^ (32 * k)) 0 (2 ^ 36) mod w32.

(** The 64 round constants: cube roots of the first 64 primes. *)
Definition K : list Z :=
  Eval vm_compute in List.map (frac_root32 3) (first_primes 64).

(** The eight working variables / the intermediate hash value. *)
Record state := mkState {
  sa : Z; sb : Z; sc : Z; sd : Z; se : Z; sf : Z; sg : Z; sh : Z
}.

(** The initial hash value: square roots of the first 8 primes. *)
Definition H0 : state :=
  Eval vm_compute in
    match List.map (frac_root32 2) (first_primes 8) with
    | [a; b; c; d; e; f; g; h] => mkState a b c d e f g h
    | _ => mkState 0 0 0 0 0 0 0 0
    end.

(** Big-endian encoding of [x] on [n] bytes (the low [8n] bits of [x]). *)
Fixpoint be_bytes (n : nat) (x : Z) : bytes :=
  match n with
  | O => []
  | S n' => (Z.shiftr x (8 * Z.of_nat n') mod 256) :: be_bytes n' x
  end.

(** Big-endian value of a byte list. *)
Definition be_value (bs : bytes) : Z :=
  fold_left (fun acc b => acc * 256 + b) bs 0.

(** Padding: a [0x80] byte, the fewest zero bytes that bring the length to
    56 modulo 64, then the bit length on 8 bytes. *)
Definition pad (msg : bytes) : bytes :=
  let l := Z.of_nat (List.length msg) in
  let k := Z.to_nat ((55 - l) mod 64) in
  msg ++ [128] ++ repeat 0 k ++ be_bytes 8 (8 * l).

(** Cut a byte list into pieces of [n] bytes ([fuel] bounds the number of
    pieces; a trailing shorter piece is kept). *)
Fixpoint chunks (fuel : nat) (n : nat) (bs : bytes) : list bytes :=
  match fuel with
  | O => []
  | S fuel' =>
      match bs with
      | [] => []
      | _ => firstn n bs :: chunks fuel' n (skipn n bs)
      end
  end.

Definition blocks (bs : bytes) : list bytes := chunks (List.length bs) 64 bs.

Definition words_of_block (blk : bytes) : list Z :=
  List.map be_value (chunks 16 4 blk).

(** The message schedule, most recent word first: [extend t ws] adds [t]
    words to the reversed list [ws]. *)
Fixpoint extend (t : nat) (ws : list Z) : list Z :=
  match t with
  | O => ws
  | S t' =>
      let w := add32 (add32 (add32 (sigma1 (nth 1 ws 0)) (nth 6 ws 0))
                            (sigma0 (nth 14 ws 0))) (nth 15 ws 0) in
      extend t' (w :: ws)
  end.

Definition schedule (blk : bytes) : list Z :=
  rev (extend 48 (rev (words_of_block blk))).

Definition round (s : state) (kw : Z * Z) : state :=
  let (k, w) := kw in
  let t1 := add32 (add32 (add32 (add32 (sh s) (Sigma1 (se s)))
                                (Ch (se s) (sf s) (sg s))) k) w in
  let t2 := add32 (Sigma0 (sa s)) (Maj (sa s) (sb s) (sc s)) in
  mkState (add32 t1 t2) (sa s) (sb s) (sc s) (add32 (sd s) t1) (se s) (sf s) (sg s).

Definition compress (h : state) (blk : bytes) : state :=
  let s := fold_left round (combine K (schedule blk)) h in
  mkState (add32 (sa h) (sa s)) (add32 (sb h) (sb s))
          (add32 (sc h) (sc s)) (add32 (sd h) (sd s))
          (add32 (se h) (se s)) (add32 (sf h) (sf s))
          (add32 (sg h) (sg s)) (add32 (sh h) (sh s)).

Definition state_bytes (s : state) : bytes :=
  be_bytes 4 (sa s) ++ be_bytes 4 (sb s) ++ be_bytes 4 (sc s) ++
  be_bytes 4 (sd s) ++ be_bytes 4 (se s) ++ be_bytes 4 (sf s) ++
  be_bytes 4 (sg s) ++ be_bytes 4 (sh s).

(** [hashlib.sha256(msg).digest()] *)
Definition digest (msg : bytes) : bytes :=
  state_bytes (fold_left compress (blocks (pad msg)) H0).

Definition hex_digit (n : Z) : ascii :=
  match n with
  | 0 => "0" | 1 => "1" | 2 => "2" | 3 => "3" | 4 => "4" | 5 => "5"
  | 6 => "6" | 7 => "7" | 8 => "8" | 9 => "9" | 10 => "a" | 11 => "b"
  | 12 => "c" | 13 => "d" | 14 => "e" | _ => "f"
  end%char.

(** [bytes.hex()]: two lowercase hexadecimal characters per byte. *)
Fixpoint hex (bs : bytes) : string :=
  match bs with
  | [] => EmptyString
  | b :: bs' => String (hex_digit (b / 16)) (String (hex_digit (b mod 16)) (hex bs'))
  end.

(** [hashlib.sha256(msg).hexdigest()] *)
Definition hexdigest (msg : bytes) : string := hex (digest msg).

End SHA256.

Local Open Scope string_scope.

(** ** The clock

    [time.time()] reads the system wall clock.  A world carries the readings
    the clock will give, the number of readings taken so far, and the trace
    of the operations performed (clock readings and hash attempts).  Readings
    are exact numbers of clock ticks: rounding the difference of two float
    readings to a float does not change its sign. *)

Inductive event : Type :=
| EvClock (t : Z)
| EvHash (content : string).

Record World : Type := mkWorld {
  clock : nat -> Z;
  reads : nat;
  trace : list event
}.

(** [time.time()] *)
Definition time_time (w : World) : Z * World :=
  let t := clock w (reads w) in
  (t, mkWorld (clock w) (S (reads w)) (trace w ++ [EvClock t])).

(** [hashlib.sha256(content.encode()).hexdigest()], recorded in the trace. *)
Definition sha256_hexdigest (content : string) (w : World) : string * World :=
  (SHA256.hexdigest (encode content),
   mkWorld (clock w) (reads w) (trace w ++ [EvHash content])).

(** ** pow_mining.py

    The nickname is given by its encoded text. *)

(** The tuple [(nonce, hash_content, hash_value, elapsed_time)]. *)
Definition mining_result : Type := N * string * string * Z.

Definition res_nonce (r : mining_result) : N := fst (fst (fst r)).
Definition res_content (r : mining_result) : string := snd (fst (fst r)).
Definition res_digest (r : mining_result) : string := snd (fst r).
Definition res_elapsed (r : mining_result) : Z := snd r.

(** The [while True] loop of [pow_mining], entered with the current [nonce]. *)
Fixpoint pow_mining_loop (fuel : nat) (nickname target : string)
    (start_time : Z) (nonce : N) (w : World) : option (mining_result * World) :=
  match fuel with
  | O => None
  | S fuel' =>
      let hash_content := nickname ++ decimal nonce in
      let (hash_value, w1) := sha256_hexdigest hash_content w in
      if startswith hash_value target then
        let (end_time, w2) := time_time w1 in
        let elapsed_time := end_time - start_time in
        Some ((nonce, hash_content, hash_value, elapsed_time), w2)
      else
        pow_mining_loop fuel' nickname target start_time (nonce + 1)%N w1
  end.

Definition pow_mining (fuel : nat) (nickname : string) (target_zeros : Z)
    (w : World) : option (mining_result * World) :=
  let nonce := 0%N in
  let target := str_mul "0" target_zeros in
  let (start_time, w1) := time_time w in
  pow_mining_loop fuel nickname target start_time nonce w1.

(** ** rsa_signature.py: the search

    The nickname is given by its encoded text. *)

(** The [while True] loop of [find_pow_hash]. *)
Fixpoint find_pow_hash_loop (fuel : nat) (nickname target : string)
    (nonce : N) : option (N * string * string) :=
  match fuel with
  | O => None
  | S fuel' =>
      let hash_content := nickname ++ decimal nonce in
      let hash_value := SHA256.hexdigest (encode hash_content) in
      if startswith hash_value target then
        Some (nonce, hash_content, hash_value)
      else
        find_pow_hash_loop fuel' nickname target (nonce + 1)%N
  end.

Definition find_pow_hash (fuel : nat) (nickname : string) (target_zeros : Z)
    : option (N * string * string) :=
  let nonce := 0%N in
  let target := str_mul "0" target_zeros in
  find_pow_hash_loop fuel nickname target nonce.

(** ** Vocabulary of the specification *)

(** The digest of the seed followed by the decimal text of a counter. *)
Definition digest_of (seed : string) (c : N) : string :=
  SHA256.hexdigest (encode (seed ++ decimal c)).

(** The difficulty predicate: the digest starts with [d] zero characters. *)
Definition meets (seed : string) (d : Z) (c : N) : bool :=
  startswith (digest_of seed c) (str_mul "0" d).

(** A run of the search returns [r] when some amount of fuel suffices. *)
Definition pow_mining_returns (seed : string) (d : Z) (w : World)
    (r : mining_result) : Prop :=
  exists fuel w', pow_mining fuel seed d w = Some (r, w').

(** A search that returns for no amount of fuel, in no world. *)
Definition pow_mining_diverges (seed : string) (d : Z) : Prop :=
  forall fuel w, pow_mining fuel seed d w = None.

Definition is_lower_hex (c : ascii) : bool :=
  existsb (Ascii.eqb c) (list_ascii_of_string "0123456789abcdef").

(** A clock whose successive readings are 0, 1, 2, ... *)
Definition steady_world : World := mkWorld (fun k => Z.of_nat k) 0 [].

(** A clock set back between its first and its second reading. *)
Definition set_back_world : World :=
  mkWorld (fun k => match k with O => 10 | _ => 5 end) 0 [].

(** The trace of [k] successive hash attempts starting at counter [n0]. *)
Definition attempts (seed : string) (n0 : N) (k : nat) : list event :=
  List.map (fun i => EvHash (seed ++ decimal (n0 + N.of_nat i))) (seq 0 k).

(** ** Exceptions

    The exception classes the code can meet, and Python's split between
    [Exception] and the classes that derive from [BaseException] only. *)

Inductive exn : Type :=
| InvalidSignature
| ValueError
| UnicodeEncodeError
| OverflowError
| MemoryError
| TypeError
| UnsupportedAlgorithm
| AttributeError
| KeyboardInterrupt
| SystemExit.

(** [isinstance(e, Exception)] *)
Definition is_Exception (e : exn) : bool :=
  match e with
  | KeyboardInterrupt | SystemExit => false
  | _ => true
  end.

(** The outcome of a call: a value, or a raised exception. *)
Inductive outcome (A : Type) : Type :=
| Return (a : A)
| Raise (e : exn).

Arguments Return {A} a.
Arguments Raise {A} e.

(** [try: body except Exception: handler] *)
Definition try_except_Exception {A : Type} (body : outcome A)
    (handler : outcome A) : outcome A :=
  match body with
  | Return a => Return a
  | Raise e => if is_Exception e then handler else Raise e
  end.

(** ** cryptography.hazmat.primitives: parameters and key objects *)

Inductive hash_algorithm : Type := hashes_SHA256.

Inductive mgf_t : Type := padding_MGF1 (algorithm : hash_algorithm).

Inductive salt_length_t : Type :=
| PSS_MAX_LENGTH
| PSS_DIGEST_LENGTH
| PSS_salt (n : Z).

Inductive padding_t : Type := padding_PSS (mgf : mgf_t) (salt_length : salt_length_t).

(** [os.urandom]: the bytes the random source gives when asked for [n]. *)
Definition random_source : Type := nat -> bytes.

(** Keys are used through their methods only. *)
Record PublicKey : Type := mkPublicKey {
  verify : bytes -> bytes -> padding_t -> hash_algorithm -> outcome unit
}.

Record PrivateKey : Type := mkPrivateKey {
  sign : bytes -> padding_t -> hash_algorithm -> random_source -> outcome bytes;
  public_key : PublicKey
}.

(** ** RSASSA-PSS (RFC 8017), the scheme behind the RSA key objects *)

Module RSA.

Local Open Scope list_scope.
Local Open Scope Z_scope.

Definition hLen : nat := 32.

(** I2OSP: [x] on [len] bytes, big-endian; fails when [x] does not fit. *)
Definition I2OSP (x : Z) (len : nat) : option bytes :=
  if (0 <=? x) && (x <? 256 ^ Z.of_nat len)
  then Some (SHA256.be_bytes len x) else None.

Definition OS2IP (bs : bytes) : Z := SHA256.be_value bs.

Fixpoint xor_bytes (a b : bytes) : bytes :=
  match a, b with
  | x :: a', y :: b' => Z.lxor x y :: xor_bytes a' b'
  | _, _ => []
  end.

Fixpoint bytes_eqb (a b : bytes) : bool :=
  match a, b with
  | [], [] => true
  | x :: a', y :: b' => (x =? y) && bytes_eqb a' b'
  | _, _ => false
  end.

(** Set the leftmost [zbits] bits of the leftmost byte to zero. *)
Definition clear_top (zbits : Z) (bs : bytes) : bytes :=
  match bs with
  | [] => []
  | b :: rest => Z.land b (Z.shiftr 255 zbits) :: rest
  end.

(** MGF1 with SHA-256: the hashes of [seed || counter], cut to [maskLen]. *)
Fixpoint mgf1_blocks (seed : bytes) (counter count : nat) : bytes :=
  match count with
  | O => []
  | S count' =>
      SHA256.digest (seed ++ SHA256.be_bytes 4 (Z.of_nat counter))
        ++ mgf1_blocks seed (S counter) count'
  end.

Definition MGF1 (seed : bytes) (maskLen : nat) : bytes :=
  firstn maskLen (mgf1_blocks seed 0 ((maskLen + hLen - 1) / hLen)).

(** The hash H of the encoding: SHA-256 of eight zero bytes, the message
    hash and the salt. *)
Definition pss_hash (M salt : bytes) : bytes :=
  SHA256.digest (repeat 0 8 ++ SHA256.digest M ++ salt).

Definition emLen_of (emBits : Z) : nat := Z.to_nat ((emBits + 7) / 8).

(** EMSA-PSS-ENCODE (RFC 8017, 9.1.1), the salt given. *)
Definition emsa_pss_encode (M : bytes) (emBits : Z) (salt : bytes)
    : option bytes :=
  let emLen := emLen_of emBits in
  let sLen := List.length salt in
  if (emLen <? hLen + sLen + 2)%nat then None else
  let H := pss_hash M salt in
  let PS := repeat 0 (emLen - sLen - hLen - 2) in
  let DB := PS ++ [1] ++ salt in
  let dbMask := MGF1 H (emLen - hLen - 1) in
  let maskedDB :=
    clear_top (8 * Z.of_nat emLen - emBits) (xor_bytes DB dbMask) in
  Some (maskedDB ++ H ++ [188]).

(** The number of leading zero bytes. *)
Fixpoint leading_zeros (bs : bytes) : nat :=
  match bs with
  | b :: bs' => if b =? 0 then S (leading_zeros bs') else O
  | [] => O
  end.

(** EMSA-PSS-VERIFY (RFC 8017, 9.1.2).  The salt length is given
    ([Some sLen]) or recovered from the encoding ([None]): the salt is then
    what follows the first non-zero byte of the data block, as OpenSSL takes
    it when asked for the salt length -2. *)
Definition emsa_pss_verify (M EM : bytes) (emBits : Z) (sLen : option nat)
    : bool :=
  let emLen := emLen_of emBits in
  if (emLen <? hLen + match sLen with Some n => n | None => O end + 2)%nat
  then false else
  if negb (nth (emLen - 1) EM 0 =? 188) then false else
  let maskedDB := firstn (emLen - hLen - 1) EM in
  let H := firstn hLen (skipn (emLen - hLen - 1) EM) in
  let zbits := 8 * Z.of_nat emLen - emBits in
  if negb (Z.shiftr (nth 0 maskedDB 0) (8 - zbits) =? 0) then false else
  let dbMask := MGF1 H (emLen - hLen - 1) in
  let DB := clear_top zbits (xor_bytes maskedDB dbMask) in
  let padLen :=
    match sLen with
    | Some n => (emLen - hLen - n - 2)%nat
    | None => leading_zeros DB
    end in
  if negb (forallb (Z.eqb 0) (firstn padLen DB)) then false else
  if negb (nth padLen DB 0 =? 1) then false else
  let salt := skipn (padLen + 1) DB in
  bytes_eqb H (pss_hash M salt).

(** The numbers of an RSA key: modulus, public and private exponent. *)
Record numbers : Type := mkNumbers {
  modulus : Z;
  public_exponent : Z;
  private_exponent : Z
}.

(** [key.key_size]: the bit length of the modulus. *)
Definition key_size (k : numbers) : Z := Z.log2 (modulus k) + 1.

(** The length of the modulus in bytes. *)
Definition key_bytes (k : numbers) : nat := Z.to_nat ((key_size k + 7) / 8).

(** RSASP1 and RSAVP1: modular exponentiation of a representative below the
    modulus. *)
Definition RSASP1 (k : numbers) (m : Z) : option Z :=
  if (0 <=? m) && (m <? modulus k)
  then Some (Zpow_mod m (private_exponent k) (modulus k)) else None.

Definition RSAVP1 (k : numbers) (s : Z) : option Z :=
  if (0 <=? s) && (s <? modulus k)
  then Some (Zpow_mod s (public_exponent k) (modulus k)) else None.

(** RSASSA-PSS-SIGN (RFC 8017, 8.1.1). *)
Definition pss_sign (k : numbers) (M salt : bytes) : option bytes :=
  match emsa_pss_encode M (key_size k - 1) salt with
  | None => None
  | Some EM =>
      match RSASP1 k (OS2IP EM) with
      | None => None
      | Some s => I2OSP s (key_bytes k)
      end
  end.

(** RSASSA-PSS-VERIFY (RFC 8017, 8.1.2), as OpenSSL performs it: a signature
    longer than the modulus is rejected, a shorter one is read as the integer
    it stands for. *)
Definition pss_verify (k : numbers) (M S : bytes) (sLen : option nat) : bool :=
  if (key_bytes k <? List.length S)%nat then false else
  match RSAVP1 k (OS2IP S) with
  | None => false
  | Some m =>
      match I2OSP m (emLen_of (key_size k - 1)) with
      | None => false
      | Some EM => emsa_pss_verify M EM (key_size k - 1) sLen
      end
  end.

(** The salt length a padding object stands for: [MAX_LENGTH] is the
    encoded-message length less the digest size less 2. *)
Definition salt_length_of (k : numbers) (s : salt_length_t) : Z :=
  match s with
  | PSS_MAX_LENGTH => (key_size k + 6) / 8 - Z.of_nat hLen - 2
  | PSS_DIGEST_LENGTH => Z.of_nat hLen
  | PSS_salt n => n
  end.

(** The salt length asked of OpenSSL when verifying.  The library hands it
    -2 for [MAX_LENGTH]: the longest salt when signing, the salt recovered
    from the signature when verifying. *)
Definition verify_salt_length (k : numbers) (s : salt_length_t) : option nat :=
  match s with
  | PSS_MAX_LENGTH => None
  | _ => Some (Z.to_nat (salt_length_of k s))
  end.

(** [private_key.sign(data, padding, algorithm)] *)
Definition rsa_sign (k : numbers) (data : bytes) (padding : padding_t)
    (algorithm : hash_algorithm) (urandom : random_source) : outcome bytes :=
  match padding, algorithm with
  | padding_PSS (padding_MGF1 hashes_SHA256) salt_length, hashes_SHA256 =>
      let sLen := salt_length_of k salt_length in
      if sLen <? 0 then Raise ValueError else
      match pss_sign k data (urandom (Z.to_nat sLen)) with
      | Some signature => Return signature
      | None => Raise ValueError
      end
  end.

(** [public_key.verify(signature, data, padding, algorithm)] *)
Definition rsa_verify (k : numbers) (signature data : bytes)
    (padding : padding_t) (algorithm : hash_algorithm) : outcome unit :=
  match padding, algorithm with
  | padding_PSS (padding_MGF1 hashes_SHA256) salt_length, hashes_SHA256 =>
      let sLen := salt_length_of k salt_length in
      if sLen <? 0 then Raise ValueError else
      if pss_verify k data signature (verify_salt_length k salt_length)
      then Return tt else Raise InvalidSignature
  end.

(** [private_key.public_key()] and the key objects themselves. *)
Definition rsa_public_key (k : numbers) : PublicKey :=
  mkPublicKey (rsa_verify k).

Definition rsa_private_key (k : numbers) : PrivateKey :=
  mkPrivateKey (rsa_sign k) (rsa_public_key k).

End RSA.

(** ** rsa_signature.py: signing and verifying

    The message is given by its encoded text. *)

Definition sign_message (private_key : PrivateKey) (message : string)
    (urandom : random_source) : outcome bytes :=
  sign private_key
    (encode message)
    (padding_PSS (padding_MGF1 hashes_SHA256) PSS_MAX_LENGTH)
    hashes_SHA256
    urandom.

Definition verify_signature (public_key : PublicKey) (message : string)
    (signature : bytes) : outcome bool :=
  try_except_Exception
    (match verify public_key
             signature
             (encode message)
             (padding_PSS (padding_MGF1 hashes_SHA256) PSS_MAX_LENGTH)
             hashes_SHA256
     with
     | Return _ => Return true
     | Raise e => Raise e
     end)
    (Return false).

(** ** The two files on Python values

    The functions above are the code on encoded text.  Here they are on
    [str] values, with the exceptions of [str.encode] and of ['0' * n]. *)

Module Py.

Local Open Scope list_scope.
Local Open Scope Z_scope.

(** A [str]: a sequence of code points, each from 0 to 0x10FFFF.  A lone
    surrogate (0xD800 to 0xDFFF) is a code point as any other: ['\ud800'] is
    the [str] [[55296]]. *)
Definition str : Type := list Z.

Definition is_surrogate (c : Z) : bool := (55296 <=? c) && (c <=? 57343).

(** The UTF-8 form of a code point (RFC 3629); a surrogate has none. *)
Definition utf8 (c : Z) : option bytes :=
  if (c <? 0) || (1114111 <? c) || is_surrogate c then None
  else if c <? 128 then Some [c]
  else if c <? 2048 then Some [192 + c / 64; 128 + c mod 64]
  else if c <? 65536 then
    Some [224 + c / 4096; 128 + (c / 64) mod 64; 128 + c mod 64]
  else
    Some [240 + c / 262144; 128 + (c / 4096) mod 64;
          128 + (c / 64) mod 64; 128 + c mod 64].

(** [s.encode()] / [s.encode('utf-8')]: [UnicodeEncodeError] when a code
    point has no UTF-8 form. *)
Fixpoint encode (s : str) : outcome bytes :=
  match s with
  | [] => Return []
  | c :: s' =>
      match utf8 c with
      | None => Raise UnicodeEncodeError
      | Some bs =>
          match encode s' with
          | Return rest => Return (bs ++ rest)
          | Raise e => Raise e
          end
      end
  end.

(** The [str] of an ASCII text: a literal, or the text of a number. *)
Definition of_text (t : string) : str :=
  List.map byte_of_ascii (list_ascii_of_string t).

(** [s * n] for an ASCII text [s]: [OverflowError] when [n] is no machine
    index (a signed 64-bit integer), [MemoryError] when the result has more
    than the [memory] characters that can be allocated, and otherwise [s]
    repeated [n] times, which is empty for [n <= 0]. *)
Definition mul (memory : N) (s : string) (n : Z) : outcome string :=
  if (n <? - 2 ^ 63) || (2 ^ 63 - 1 <? n) then Raise OverflowError
  else if Z.of_N memory <? Z.of_nat (String.length s) * n then Raise MemoryError
  else Return (str_mul s n).

(** [hashlib.sha256(data).hexdigest()], recorded in the trace by the text
    that [data] encodes. *)
Definition sha256_hexdigest (data : bytes) (w : World) : string * World :=
  (SHA256.hexdigest data,
   mkWorld (clock w) (reads w) (trace w ++ [EvHash (text_of_bytes data)])).

(** The tuple [(nonce, hash_content, hash_value, elapsed_time)]. *)
Definition mining_result : Type := N * str * string * Z.

Definition res_nonce (r : mining_result) : N := fst (fst (fst r)).
Definition res_content (r : mining_result) : str := snd (fst (fst r)).
Definition res_digest (r : mining_result) : string := snd (fst r).
Definition res_elapsed (r : mining_result) : Z := snd r.

(** pow_mining.py: the [while True] loop of [pow_mining]. *)
Fixpoint pow_mining_loop (fuel : nat) (nickname : str) (target : string)
    (start_time : Z) (nonce : N) (w : World)
    : option (outcome mining_result * World) :=
  match fuel with
  | O => None
  | S fuel' =>
      let hash_content := nickname ++ of_text (decimal nonce) in
      match encode hash_content with
      | Raise e => Some (Raise e, w)
      | Return data =>
          let (hash_value, w1) := sha256_hexdigest data w in
          if startswith hash_value target then
            let (end_time, w2) := time_time w1 in
            let elapsed_time := end_time - start_time in
            Some (Return (nonce, hash_content, hash_value, elapsed_time), w2)
          else
            pow_mining_loop fuel' nickname target start_time (nonce + 1)%N w1
      end
  end.

Definition pow_mining (fuel : nat) (memory : N) (nickname : str)
    (target_zeros : Z) (w : World) : option (outcome mining_result * World) :=
  let nonce := 0%N in
  match mul memory "0" target_zeros with
  | Raise e => Some (Raise e, w)
  | Return target =>
      let (start_time, w1) := time_time w in
      pow_mining_loop fuel nickname target start_time nonce w1
  end.

(** rsa_signature.py: the [while True] loop of [find_pow_hash]. *)
Fixpoint find_pow_hash_loop (fuel : nat) (nickname : str) (target : string)
    (nonce : N) : option (outcome (N * str * string)) :=
  match fuel with
  | O => None
  | S fuel' =>
      let hash_content := nickname ++ of_text (decimal nonce) in
      match encode hash_content with
      | Raise e => Some (Raise e)
      | Return data =>
          let hash_value := SHA256.hexdigest data in
          if startswith hash_value target then
            Some (Return (nonce, hash_content, hash_value))
          else
            find_pow_hash_loop fuel' nickname target (nonce + 1)%N
      end
  end.

Definition find_pow_hash (fuel : nat) (memory : N) (nickname : str)
    (target_zeros : Z) : option (outcome (N * str * string)) :=
  let nonce := 0%N in
  match mul memory "0" target_zeros with
  | Raise e => Some (Raise e)
  | Return target => find_pow_hash_loop fuel nickname target nonce
  end.

(** rsa_signature.py: [sign_message] and [verify_signature].  The message is
    encoded before the key's method is called; in [verify_signature] this
    happens inside the [try]. *)
Definition sign_message (private_key : PrivateKey) (message : str)
    (urandom : random_source) : outcome bytes :=
  match encode message with
  | Raise e => Raise e
  | Return data =>
      sign private_key
        data
        (padding_PSS (padding_MGF1 hashes_SHA256) PSS_MAX_LENGTH)
        hashes_SHA256
        urandom
  end.

Definition verify_signature (public_key : PublicKey) (message : str)
    (signature : bytes) : outcome bool :=
  try_except_Exception
    (match encode message with
     | Raise e => Raise e
     | Return data =>
         match verify public_key
                 signature
                 data
                 (padding_PSS (padding_MGF1 hashes_SHA256) PSS_MAX_LENGTH)
                 hashes_SHA256
         with
         | Return _ => Return true
         | Raise e => Raise e
         end
     end)
    (Return false).

(** A run of the search returns [r] when some amount of fuel suffices. *)
Definition pow_mining_returns (memory : N) (seed : str) (d : Z) (w : World)
    (r : mining_result) : Prop :=
  exists fuel w', pow_mining fuel memory seed d w = Some (Return r, w').

(** What [pow_mining] returns on a [str], from what it returns on the
    encoded text. *)
Definition of_text_result (seed : str) (r : N * string * string * Z)
    : mining_result :=
  (fst (fst (fst r)), seed ++ of_text (decimal (fst (fst (fst r)))),
   snd (fst r), snd r).

End Py.

(** An ASCII text: every character is below 128. *)
Definition ascii_text (t : string) : Prop :=
  Forall (fun b => (0 <= b < 128)%Z) (encode t).

(** ** Vocabulary of the signature properties *)

(** The random source gives as many bytes as it is asked for. *)
Definition urandom_ok (urandom : random_source) : Prop :=
  forall n : nat, List.length (urandom n) = n /\ Forall is_byte (urandom n).

(** A random source that gives the byte [b] only. *)
Definition constant_source (b : Z) : random_source := fun n => repeat b n.

(** The numbers form an RSA key pair when the public operation undoes the
    private one on every representative below the modulus. *)
Definition is_key_pair (k : RSA.numbers) : Prop :=
  forall m : Z, 0 <= m < RSA.modulus k ->
    Zpow_mod (Zpow_mod m (RSA.private_exponent k) (RSA.modulus k))
             (RSA.public_exponent k) (RSA.modulus k) = m.

(** The data block of EMSA-PSS before masking: padding, 0x01, salt. *)
Definition pss_DB (emLen : nat) (salt : bytes) : bytes :=
  (repeat 0 (emLen - List.length salt - RSA.hLen - 2) ++ [1] ++ salt)%list.

(** The salt a signature with [MAX_LENGTH] draws from the random source. *)
Definition max_salt (k : RSA.numbers) (urandom : random_source) : bytes :=
  urandom (Z.to_nat (RSA.salt_length_of k PSS_MAX_LENGTH)).

(** All sequences of [n] elements of an alphabet; all byte strings of
    length [n]; all [str] values of [n] ASCII characters. *)
Fixpoint all_words (alphabet : list Z) (n : nat) : list (list Z) :=
  match n with
  | O => [[]]
  | S n' =>
      flat_map (fun b => List.map (cons b) (all_words alphabet n')) alphabet
  end.

Definition all_bytes (n : nat) : list bytes :=
  all_words (List.map Z.of_nat (seq 0 256)) n.

Definition ascii_strs (n : nat) : list Py.str :=
  all_words (List.map Z.of_nat (seq 0 128)) n.

Definition list_lcm (ps : list Z) : Z := fold_right Z.lcm 1 ps.

(** [r ^ x = r] modulo [p] for every residue [r], for each [p] of [ps]. *)
Definition fixes_residues (ps : list Z) (x : Z) : bool :=
  forallb (fun p =>
    forallb (fun r => (Zpow_mod (Z.of_nat r) x p =? Z.of_nat r)%Z)
            (seq 0 (Z.to_nat p))) ps.

(** A multi-prime RSA key (RFC 8017, section 3): the modulus is the product
    of the 49 odd primes up to 229 (303 bits), the public exponent is 65537
    and the private exponent is its inverse modulo the least common multiple
    of the [p - 1]. *)
Definition small_primes : list Z :=
  [3; 5; 7; 11; 13; 17; 19; 23; 29; 31; 37; 41; 43; 47; 53; 59; 61; 67; 71;
   73; 79; 83; 89; 97; 101; 103; 107; 109; 113; 127; 131; 137; 139; 149; 151;
   157; 163; 167; 173; 179; 181; 191; 193; 197; 199; 211; 223; 227; 229].

Definition small_primes_key : RSA.numbers :=
  RSA.mkNumbers
    9539133444790097506800945910496378878609919834178506027953758452154850007466954507364870095
    65537
    548999596921940394706310273.

(** A 512-bit key made by [openssl genrsa], and a signature of "China-MY25"
    made with it by OpenSSL (PSS, MGF1 with SHA-256, maximal salt length). *)
Definition openssl_key : RSA.numbers :=
  RSA.mkNumbers
    11093511229247559413236387004231307716114628855542336944570058148677193021775363028569483405810319791981983371831339777858780053676464342187256975126431797
    65537
    6313129908387887389963902676500463136552042324126935909252557924730527655219587101851087345738861918012488033952149513454878679849512065596139525181981761.

Definition openssl_signature : bytes :=
  [147; 71; 158; 42; 59; 221; 0; 34; 221; 198; 231; 205; 87; 67; 133; 77;
   168; 197; 164; 106; 150; 192; 54; 168; 129; 36; 135; 153; 227; 4; 87; 97;
   80; 129; 214; 18; 67; 216; 12; 186; 106; 124; 126; 2; 157; 143; 168; 238;
   73; 25; 155; 29; 238; 41; 177; 246; 98; 178; 196; 43; 237; 241; 47; 213].

(** The signature above is one of 64 bytes.  Two more signatures of
    "China-MY25" made by OpenSSL with the same key: one whose leading zero
    byte was cut off (63 bytes; [openssl] verifies it), and one made with a
    salt of 10 bytes ([openssl] verifies it when the salt length is
    recovered from the signature). *)
Definition openssl_short_signature : bytes :=
  [75; 230; 167; 126; 70; 214; 22; 139; 200; 28; 178; 26; 123; 81; 47; 1;
   236; 188; 187; 66; 252; 198; 236; 31; 135; 215; 1; 217; 135; 107; 165; 22;
   235; 213; 164; 148; 51; 17; 67; 17; 185; 169; 184; 16; 210; 99; 210; 13;
   227; 226; 23; 198; 130; 167; 67; 144; 102; 230; 129; 224; 161; 17; 174].

Definition openssl_short_salt_signature : bytes :=
  [9; 76; 163; 27; 191; 21; 192; 208; 34; 253; 181; 16; 150; 138; 78; 168;
   3; 156; 220; 176; 52; 125; 68; 24; 248; 75; 245; 75; 162; 70; 87; 68;
   33; 8; 89; 104; 200; 61; 97; 49; 242; 207; 242; 61; 43; 47; 250; 165;
   33; 254; 244; 51; 190; 227; 61; 74; 103; 177; 60; 70; 214; 246; 124; 76].

(** A 2048-bit key made by [openssl genrsa 2048], its two primes, and a
    signature of "China-MY25" made with it by OpenSSL. *)
Definition openssl_2048_p : Z :=
  170237963645006837232335794742355136873575453966149104378041723591779963565718551308198089726573688852586525170271794153000771449344351911633813412215745086174707357985322274988853991902490186640485448683259424450463334557493802011982866172502212200273971141018629982031653563009119848761859030101697596730793.
Definition openssl_2048_q : Z :=
  140290394221866903889202621125475821466621090081443112600292221751372192261920996880592184146932142037884384701839154971269373076619488795118554712717351535842646674335411540497559441695988588492331318958410821225896233335440516777835083294777757092629746218645265037591993004574032885524745696550412748177363.

Definition openssl_2048_key : RSA.numbers :=
  RSA.mkNumbers
    23882751031285855246338560063475106438523230028560291126802557853517045970034050393190197135070446773914736471143944426767621817192210720626952503059732419277318987590251670927610523103760357009774813653543446751321697377846844948716939607221010174426577115085941421123861312421758509174673316431121358441059776685244561382008227597028203910101902620334540335703552737838060964705358583376104791450740766187774166143461755995859390002660372750945317430286065457988088684462860591205620384723907489193452670362799896825297431489918663882615040622688063427050559399965006474040473140061680388671994254446982198127638859
    65537
    245069961526156791631638336248027970152843007678209191491443309222122059521307030981283970479803400452533077144884609106325063278175102760602797783048812914292644142308074045177809127474233487786648186246058988666918557251659417245405524907397795784089493109164221824401433275914866371972592662159224766950157788585170240578751374405554053637243781833149310618348738676134896759686277365828059123723137046096163770764438962630718038735300517145054473111423493797681965450272945879348537401662157399733281986400718790527414603469220488146733329992843384276699016533440543271610255037227526300686763117581243939055593.

Definition openssl_2048_signature : bytes :=
  [154; 55; 188; 10; 130; 159; 57; 8; 151; 184; 57; 64; 92; 25; 65; 25;
   236; 246; 33; 161; 234; 209; 154; 199; 73; 122; 187; 77; 171; 78; 251; 139;
   244; 225; 34; 75; 9; 238; 155; 169; 166; 30; 56; 48; 71; 234; 212; 211;
   82; 232; 56; 112; 56; 173; 203; 165; 125; 62; 164; 136; 9; 7; 63; 167;
   99; 29; 75; 251; 155; 93; 237; 137; 128; 31; 201; 128; 25; 1; 94; 165;
   1; 49; 187; 52; 204; 175; 225; 59; 17; 36; 221; 111; 161; 234; 86; 166;
   227; 94; 225; 65; 130; 232; 156; 126; 90; 78; 39; 54; 241; 14; 201; 216;
   139; 179; 34; 141; 180; 6; 121; 68; 117; 98; 166; 171; 171; 181; 192; 124;
   141; 107; 185; 3; 110; 247; 116; 217; 152; 135; 121; 74; 198; 34; 56; 21;
   120; 85; 13; 15; 70; 2; 191; 42; 217; 115; 226; 238; 18; 85; 125; 205;
   171; 216; 66; 242; 230; 20; 208; 73; 148; 60; 100; 65; 103; 0; 140; 17;
   44; 127; 19; 30; 224; 186; 41; 126; 64; 113; 227; 248; 125; 235; 63; 166;
   169; 143; 244; 247; 101; 174; 112; 182; 112; 228; 28; 228; 228; 83; 244; 200;
   58; 178; 88; 19; 67; 24; 141; 95; 146; 8; 161; 127; 79; 252; 56; 62;
   139; 220; 54; 104; 18; 103; 65; 115; 132; 123; 124; 207; 204; 118; 113; 82;
   89; 65; 20; 130; 16; 66; 117; 252; 121; 226; 86; 214; 210; 255; 234; 39].

(** ** Vocabulary of the further properties *)

(** [int(s)] for the decimal text of a non-negative integer. *)
Definition parse_decimal (s : string) : option N :=
  option_map N.of_uint (NilZero.uint_of_string s).

(** The inputs hashed, in order, and the number of clock readings, in a
    trace. *)
Fixpoint hashed (t : list event) : list string :=
  match t with
  | [] => []
  | EvHash content :: t' => content :: hashed t'
  | EvClock _ :: t' => hashed t'
  end.

Fixpoint clock_readings (t : list event) : nat :=
  match t with
  | [] => O
  | EvClock _ :: t' => S (clock_readings t')
  | EvHash _ :: t' => clock_readings t'
  end.

(** ** rsa_signature.py: key generation *)

(** The numbers of the key [rsa.generate_private_key] builds from the two
    primes [p] and [q] it drew: the modulus is [p * q], and the private
    exponent is the inverse of the public one, as OpenSSL computes it: modulo
    the least common multiple of [p - 1] and [q - 1] for a key of 2048 bits
    or more, modulo [(p - 1) * (q - 1)] for a smaller one. *)
Definition generated_numbers (public_exponent key_size p q : Z) : RSA.numbers :=
  RSA.mkNumbers (p * q) public_exponent
    (Z.invmod public_exponent
       (if (2048 <=? key_size)%Z then Z.lcm (p - 1) (q - 1)
        else (p - 1) * (q - 1))).

(** [rsa.generate_private_key(public_exponent, key_size)], the primes the
    library drew given: two distinct primes whose product has [key_size]
    bits, with [public_exponent] invertible modulo [p - 1] and [q - 1]. *)
Definition rsa_generate_private_key (public_exponent key_size : Z) (p q : Z)
    : PrivateKey :=
  RSA.rsa_private_key (generated_numbers public_exponent key_size p q).

Definition generate_rsa_keypair (p q : Z) : PrivateKey * PublicKey :=
  let private_key := rsa_generate_private_key 65537 2048 p q in
  let public_key := public_key private_key in
  (private_key, public_key).

(** Two primes of the form [k * 2^72 + 1], and the two primes of
    [openssl_key]. *)
Definition proth_p : Z := 1178855498621722530717 * 2 ^ 72 + 1.
Definition proth_q : Z := 1071648160044789083335 * 2 ^ 72 + 1.

Definition openssl_p : Z :=
  108356687110466633604269541087319889503807498191381215381559144601498732512439.
Definition openssl_q : Z :=
  102379571811179800702182651523779281979077844169108934230781675908477738526323.

(** * Properties *)

(** ** SHA-256 test vectors (FIPS 180-4, appendix B) *)

Example sha256_abc :
  SHA256.hexdigest (encode "abc")
  = "ba7816bf8f01cfea414140de5dae2223b00361a396177a9cb410ff61f20015ad".
Proof. vm_compute. reflexivity. Qed.

Example sha256_empty :
  SHA256.hexdigest (encode "")
  = "e3b0c44298fc1c149afbf4c8996fb92427ae41e4649b934ca495991b7852b855".
Proof. vm_compute. reflexivity. Qed.

Example sha256_constants :
  nth 0 SHA256.K 0 = 0x428a2f98 /\ nth 63 SHA256.K 0 = 0xc67178f2 /\
  List.length SHA256.K = 64%nat /\
  SHA256.sa SHA256.H0 = 0x6a09e667 /\ SHA256.sh SHA256.H0 = 0x5be0cd19.
Proof. repeat split. Qed.

Example sha256_two_blocks :
  SHA256.hexdigest (encode "abcdbcdecdefdefgefghfghighijhijkijkljklmklmnlmnomnopnopq")
  = "248d6a61d20638b8e5c026930c3e6039a33ce45964ff2167f6ecedd419db06c1".
Proof. vm_compute. reflexivity. Qed.

(** ** Strings and digests *)

Lemma str_repeat_length (c : ascii) (n : nat) :
  String.length (str_repeat (String c EmptyString) n) = n.
Proof. induction n as [|n IH]; simpl; [reflexivity | now rewrite IH]. Qed.

Lemma str_mul_nonpos (s : string) (n : Z) : n <= 0 -> str_mul s n = "".
Proof.
  intros Hn. unfold str_mul.
  replace (Z.to_nat n) with O by lia. reflexivity.
Qed.

Lemma startswith_empty (s : string) : startswith s "" = true.
Proof. unfold startswith. destruct s; reflexivity. Qed.

Lemma startswith_length (s t : string) :
  startswith s t = true -> (String.length t <= String.length s)%nat.
Proof.
  unfold startswith. revert s.
  induction t as [|c t IH]; intros s H; simpl in *; [lia|].
  destruct s as [|c' s]; simpl in H; [discriminate|].
  destruct (ascii_dec c c'); [|discriminate].
  apply IH in H. simpl. lia.
Qed.

Lemma be_bytes_length (n : nat) (x : Z) : List.length (SHA256.be_bytes n x) = n.
Proof. induction n as [|n IH]; simpl; [reflexivity | now rewrite IH]. Qed.

Lemma digest_length (msg : bytes) : List.length (SHA256.digest msg) = 32%nat.
Proof.
  unfold SHA256.digest, SHA256.state_bytes.
  repeat rewrite length_app. repeat rewrite be_bytes_length. reflexivity.
Qed.

Lemma hex_length (bs : bytes) :
  String.length (SHA256.hex bs) = (2 * List.length bs)%nat.
Proof. induction bs as [|b bs IH]; simpl; [reflexivity | rewrite IH; lia]. Qed.

Lemma hexdigest_length (msg : bytes) :
  String.length (SHA256.hexdigest msg) = 64%nat.
Proof. unfold SHA256.hexdigest. now rewrite hex_length, digest_length. Qed.

Lemma hex_digit_lower (n : Z) : is_lower_hex (SHA256.hex_digit n) = true.
Proof.
  destruct n as [|p|p]; try reflexivity.
  do 4 (destruct p as [p|p|]; try reflexivity).
Qed.

Lemma hex_lower (bs : bytes) :
  forallb is_lower_hex (list_ascii_of_string (SHA256.hex bs)) = true.
Proof.
  induction bs as [|b bs IH]; [reflexivity|].
  cbn [SHA256.hex list_ascii_of_string forallb].
  now rewrite !hex_digit_lower, IH.
Qed.

(** No digest starts with more than 64 zero characters. *)
Lemma meets_bound (seed : string) (d : Z) (c : N) :
  meets seed d c = true -> d <= 64.
Proof.
  unfold meets, digest_of. intros H.
  apply startswith_length in H.
  rewrite hexdigest_length in H. unfold str_mul in H.
  rewrite str_repeat_length in H. lia.
Qed.

(** ** The search loops *)

Lemma attempts_S (seed : string) (n0 : N) (k : nat) :
  attempts seed n0 (S k) = EvHash (seed ++ decimal n0) :: attempts seed (n0 + 1) k.
Proof.
  unfold attempts. cbn [seq List.map]. rewrite N.add_0_r. f_equal.
  rewrite <- seq_shift, map_map. apply map_ext. intros i.
  do 3 f_equal. lia.
Qed.

(** What a returning run of the loop of [pow_mining] returns: it stops at the
    first counter from [n0] on whose digest starts with [target], having
    hashed each counter up to it once and then read the clock once. *)
Lemma pow_mining_loop_sound (fuel : nat) (nickname target : string) (t0 : Z) :
  forall (n0 : N) (w : World) (r : mining_result) (w' : World),
    pow_mining_loop fuel nickname target t0 n0 w = Some (r, w') ->
    exists k : nat,
      (k < fuel)%nat /\
      res_nonce r = (n0 + N.of_nat k)%N /\
      res_content r = nickname ++ decimal (res_nonce r) /\
      res_digest r = digest_of nickname (res_nonce r) /\
      startswith (res_digest r) target = true /\
      (forall j : nat, (j < k)%nat ->
         startswith (digest_of nickname (n0 + N.of_nat j)) target = false) /\
      res_elapsed r = clock w (reads w) - t0 /\
      w' = mkWorld (clock w) (S (reads w))
             (trace w ++ attempts nickname n0 (S k) ++ [EvClock (clock w (reads w))]).
Proof.
  induction fuel as [|fuel IH]; intros n0 w r w' H; [discriminate|].
  cbn [pow_mining_loop sha256_hexdigest] in H.
  destruct (startswith (SHA256.hexdigest (encode (nickname ++ decimal n0))) target) eqn:E.
  - cbn [time_time clock reads trace] in H. inversion H; subst; clear H.
    exists O. cbn [res_nonce res_content res_digest res_elapsed fst snd].
    rewrite N.add_0_r. repeat split; try reflexivity; try lia; try assumption.
    rewrite attempts_S. unfold attempts. cbn [seq List.map].
    rewrite <- app_assoc. reflexivity.
  - apply IH in H. destruct H as (k & Hk & Hn & Hc & Hd & Hs & Hmin & He & Hw).
    exists (S k). cbn [clock reads trace] in *.
    repeat split; try assumption; try lia.
    + intros [|j] Hj.
      * rewrite N.add_0_r. exact E.
      * replace (n0 + N.of_nat (S j))%N with (n0 + 1 + N.of_nat j)%N by lia.
        apply Hmin. lia.
    + rewrite Hw. f_equal. rewrite (attempts_S nickname n0 (S k)).
      rewrite <- app_assoc. reflexivity.
Qed.

(** Enough fuel reaches any counter whose digest starts with [target]. *)
Lemma pow_mining_loop_complete (nickname target : string) (t0 : Z) (c : N) :
  startswith (digest_of nickname c) target = true ->
  forall (fuel : nat) (n0 : N) (w : World),
    (n0 <= c)%N -> (N.to_nat (c - n0) < fuel)%nat ->
    exists r w', pow_mining_loop fuel nickname target t0 n0 w = Some (r, w').
Proof.
  intros Hc. induction fuel as [|fuel IH]; intros n0 w Hle Hfuel; [lia|].
  cbn [pow_mining_loop sha256_hexdigest].
  destruct (startswith (SHA256.hexdigest (encode (nickname ++ decimal n0))) target) eqn:E.
  - cbn [time_time]. eauto.
  - assert (n0 <> c) by (intros ->; unfold digest_of in Hc; congruence).
    apply IH; lia.
Qed.

(** The loop of [find_pow_hash] is the loop of [pow_mining] without the clock. *)
Lemma find_pow_hash_loop_eq (fuel : nat) (nickname target : string) (t0 : Z) :
  forall (n0 : N) (w : World),
    find_pow_hash_loop fuel nickname target n0
    = option_map (fun rw : mining_result * World => fst (fst rw))
        (pow_mining_loop fuel nickname target t0 n0 w).
Proof.
  induction fuel as [|fuel IH]; intros n0 w; [reflexivity|].
  cbn [pow_mining_loop find_pow_hash_loop sha256_hexdigest].
  destruct (startswith (SHA256.hexdigest (encode (nickname ++ decimal n0))) target).
  - reflexivity.
  - apply IH.
Qed.

(** ** pow_mining: what a run returns *)

Lemma pow_mining_sound (fuel : nat) (seed : string) (d : Z) (w : World)
    (r : mining_result) (w' : World) :
  pow_mining fuel seed d w = Some (r, w') ->
  exists k : nat,
    (k < fuel)%nat /\
    res_nonce r = N.of_nat k /\
    res_content r = seed ++ decimal (res_nonce r) /\
    res_digest r = digest_of seed (res_nonce r) /\
    meets seed d (res_nonce r) = true /\
    (forall c : N, (c < res_nonce r)%N -> meets seed d c = false) /\
    res_elapsed r = clock w (S (reads w)) - clock w (reads w) /\
    w' = mkWorld (clock w) (S (S (reads w)))
           (trace w ++ [EvClock (clock w (reads w))]
              ++ attempts seed 0 (S k) ++ [EvClock (clock w (S (reads w)))]).
Proof.
  unfold pow_mining. cbn [time_time]. intros H.
  apply pow_mining_loop_sound in H.
  destruct H as (k & Hk & Hn & Hc & Hd & Hs & Hmin & He & Hw).
  cbn [clock reads trace] in *. rewrite N.add_0_l in Hn.
  exists k. repeat split; try assumption.
  - unfold meets. rewrite <- Hd. exact Hs.
  - intros c Hlt. unfold meets.
    replace c with (0 + N.of_nat (N.to_nat c))%N by lia.
    apply Hmin. lia.
  - rewrite Hw. f_equal. rewrite <- app_assoc. reflexivity.
Qed.

Lemma pow_mining_complete (seed : string) (d : Z) (c : N) :
  meets seed d c = true ->
  forall (fuel : nat) (w : World), (N.to_nat c < fuel)%nat ->
    exists r w', pow_mining fuel seed d w = Some (r, w').
Proof.
  intros Hc fuel w Hfuel. unfold pow_mining. cbn [time_time].
  apply pow_mining_loop_complete with (c := c); [exact Hc | lia | ].
  rewrite N.sub_0_r. exact Hfuel.
Qed.

(** With a target of zero or fewer characters the first attempt wins. *)
Lemma pow_mining_nonpos (fuel : nat) (seed : string) (d : Z) (w : World) :
  d <= 0 ->
  pow_mining (S fuel) seed d w
  = Some ((0%N, seed ++ "0", SHA256.hexdigest (encode (seed ++ "0")),
           clock w (S (reads w)) - clock w (reads w)),
          mkWorld (clock w) (S (S (reads w)))
            (trace w ++ [EvClock (clock w (reads w))]
               ++ [EvHash (seed ++ "0")] ++ [EvClock (clock w (S (reads w)))])).
Proof.
  intros Hd. unfold pow_mining. rewrite (str_mul_nonpos _ _ Hd).
  cbn [time_time pow_mining_loop sha256_hexdigest clock reads trace].
  rewrite startswith_empty. change (decimal 0) with "0".
  do 3 f_equal. rewrite <- !app_assoc. reflexivity.
Qed.

(** No run returns when more than 64 zero characters are asked for. *)
Lemma pow_mining_diverges_above_64 (seed : string) (d : Z) :
  64 < d -> pow_mining_diverges seed d.
Proof.
  intros Hd fuel w.
  destruct (pow_mining fuel seed d w) as [[r w']|] eqn:E; [|reflexivity].
  apply pow_mining_sound in E.
  destruct E as (k & _ & _ & _ & _ & Hm & _).
  apply meets_bound in Hm. lia.
Qed.

(** ** The claims on the search *)

(** C1 (as the code has it): whenever some counter's digest starts with [d]
    zero characters, the search returns, given fuel beyond that counter; the
    digest it returns starts with [d] zero characters and no smaller counter's
    digest does. *)
Theorem pow_mining_minimal (seed : string) (d : Z) (c : N) :
  meets seed d c = true ->
  forall (fuel : nat) (w : World), (N.to_nat c < fuel)%nat ->
    exists r w',
      pow_mining fuel seed d w = Some (r, w') /\
      startswith (res_digest r) (str_mul "0" d) = true /\
      (res_nonce r <= c)%N /\
      forall c' : N, (c' < res_nonce r)%N ->
        startswith (SHA256.hexdigest (encode (seed ++ decimal c'))) (str_mul "0" d)
        = false.
Proof.
  intros Hc fuel w Hfuel.
  destruct (pow_mining_complete seed d c Hc fuel w Hfuel) as (r & w' & E).
  exists r, w'. split; [exact E|].
  apply pow_mining_sound in E.
  destruct E as (k & _ & _ & _ & Hd & Hm & Hmin & _).
  repeat split.
  - unfold meets in Hm. rewrite <- Hd in Hm. exact Hm.
  - destruct (N.le_gt_cases (res_nonce r) c) as [Hle|Hgt]; [exact Hle|].
    specialize (Hmin c Hgt). congruence.
  - intros c' Hlt. exact (Hmin c' Hlt).
Qed.

Lemma pow_mining_minimal_witness :
  meets "China-MY" 1 25 = true /\
  exists r w',
    pow_mining 26 "China-MY" 1 steady_world = Some (r, w') /\
    startswith (res_digest r) (str_mul "0" 1) = true /\
    (res_nonce r <= 25)%N /\
    forall c' : N, (c' < res_nonce r)%N ->
      startswith (SHA256.hexdigest (encode ("China-MY" ++ decimal c'))) (str_mul "0" 1)
      = false.
Proof.
  assert (H : meets "China-MY" 1 25 = true) by (vm_compute; reflexivity).
  split; [exact H|].
  apply (pow_mining_minimal "China-MY" 1 25 H 26%nat steady_world).
  vm_compute. lia.
Defined.

(** C1, as stated, fails at difficulty 65: a digest has only 64 characters,
    so no run of the search returns. *)
Lemma pow_mining_65_never_returns :
  ~ exists fuel w r w', pow_mining fuel "China-MY" 65 w = Some (r, w').
Proof.
  intros (fuel & w & r & w' & E).
  rewrite (pow_mining_diverges_above_64 "China-MY" 65) in E; [discriminate | lia].
Qed.

(** C2: in every world the search returns as soon as some counter meets the
    difficulty, and every result it returns has as committed input the seed
    followed by the decimal text of the counter and as digest the SHA-256 of
    that input, written as 64 lowercase hexadecimal characters. *)
Theorem pow_mining_result_shape (seed : string) (d : Z) (w : World) :
  (forall c : N, meets seed d c = true ->
     exists r, pow_mining_returns seed d w r) /\
  (forall r : mining_result, pow_mining_returns seed d w r ->
     res_content r = seed ++ decimal (res_nonce r) /\
     res_digest r = SHA256.hex (SHA256.digest (encode (res_content r))) /\
     String.length (res_digest r) = 64%nat /\
     forallb is_lower_hex (list_ascii_of_string (res_digest r)) = true).
Proof.
  split.
  - intros c Hc.
    destruct (pow_mining_complete seed d c Hc (S (N.to_nat c)) w) as (r & w' & E);
      [lia|].
    exists r, (S (N.to_nat c)), w'. exact E.
  - intros r (fuel & w' & E). apply pow_mining_sound in E.
    destruct E as (k & _ & _ & Hc & Hd & _).
    assert (Hd' : res_digest r = SHA256.hexdigest (encode (res_content r))).
    { rewrite Hd, Hc. reflexivity. }
    repeat split.
    + exact Hc.
    + exact Hd'.
    + rewrite Hd'. apply hexdigest_length.
    + rewrite Hd'. apply hex_lower.
Qed.

Lemma pow_mining_result_shape_witness :
  let r := (25%N, "China-MY25",
            "0edc234120191c3e18c8d4a9390b634611251455c38214092be9c979b0a1eccc",
            1) in
  pow_mining_returns "China-MY" 1 steady_world r /\
  res_content r = "China-MY" ++ decimal (res_nonce r) /\
  res_digest r = SHA256.hex (SHA256.digest (encode (res_content r))) /\
  String.length (res_digest r) = 64%nat /\
  forallb is_lower_hex (list_ascii_of_string (res_digest r)) = true.
Proof.
  intros r.
  assert (H : pow_mining_returns "China-MY" 1 steady_world r).
  { exists 26%nat. eexists. vm_compute. reflexivity. }
  split; [exact H|].
  exact (proj2 (pow_mining_result_shape "China-MY" 1 steady_world) r H).
Defined.

(** C3: if one run of the search returns, then a run with the same seed and
    difficulty returns in every other world too, and all results agree on the
    counter, the committed input and the digest. *)
Theorem pow_mining_deterministic (seed : string) (d : Z) (w1 w2 : World)
    (r1 : mining_result) :
  pow_mining_returns seed d w1 r1 ->
  (exists r2, pow_mining_returns seed d w2 r2) /\
  (forall r2 : mining_result, pow_mining_returns seed d w2 r2 ->
     res_nonce r2 = res_nonce r1 /\
     res_content r2 = res_content r1 /\
     res_digest r2 = res_digest r1).
Proof.
  intros (fuel1 & w1' & E1). apply pow_mining_sound in E1.
  destruct E1 as (k1 & _ & _ & Hc1 & Hd1 & Hm1 & Hmin1 & _).
  split.
  - destruct (pow_mining_complete seed d _ Hm1 (S (N.to_nat (res_nonce r1))) w2)
      as (r2 & w2' & E2); [lia|].
    exists r2, (S (N.to_nat (res_nonce r1))), w2'. exact E2.
  - intros r2 (fuel2 & w2' & E2). apply pow_mining_sound in E2.
    destruct E2 as (k2 & _ & _ & Hc2 & Hd2 & Hm2 & Hmin2 & _).
    assert (Hn : res_nonce r2 = res_nonce r1).
    { destruct (N.lt_trichotomy (res_nonce r2) (res_nonce r1)) as [Hlt|[Heq|Hgt]].
      - specialize (Hmin1 _ Hlt). congruence.
      - exact Heq.
      - specialize (Hmin2 _ Hgt). congruence. }
    repeat split; [exact Hn | congruence | congruence].
Qed.

Lemma pow_mining_deterministic_witness :
  let r1 := (25%N, "China-MY25",
             "0edc234120191c3e18c8d4a9390b634611251455c38214092be9c979b0a1eccc",
             1) in
  pow_mining_returns "China-MY" 1 steady_world r1 /\
  (exists r2, pow_mining_returns "China-MY" 1 set_back_world r2) /\
  (forall r2 : mining_result, pow_mining_returns "China-MY" 1 set_back_world r2 ->
     res_nonce r2 = res_nonce r1 /\
     res_content r2 = res_content r1 /\
     res_digest r2 = res_digest r1).
Proof.
  intros r1.
  assert (H : pow_mining_returns "China-MY" 1 steady_world r1).
  { exists 26%nat. eexists. vm_compute. reflexivity. }
  split; [exact H|].
  exact (pow_mining_deterministic "China-MY" 1 steady_world set_back_world r1 H).
Defined.

(** C8 (as the code has it): the elapsed time a run returns is the second
    reading of the wall clock minus the first; the first reading precedes
    every hash attempt, the second follows the winning one, and nothing else
    happens in between.  It is non-negative exactly when the clock did not go
    back between the two readings. *)
Theorem pow_mining_elapsed (fuel : nat) (seed : string) (d : Z) (w : World)
    (r : mining_result) (w' : World) :
  pow_mining fuel seed d w = Some (r, w') ->
  let t0 := clock w (reads w) in
  let t1 := clock w (S (reads w)) in
  res_elapsed r = t1 - t0 /\
  trace w' = (trace w ++ [EvClock t0]
                ++ attempts seed 0 (S (N.to_nat (res_nonce r))) ++ [EvClock t1])%list /\
  (0 <= res_elapsed r <-> t0 <= t1).
Proof.
  intros E t0 t1. apply pow_mining_sound in E.
  destruct E as (k & _ & Hn & _ & _ & _ & _ & He & Hw).
  subst t0 t1. repeat split.
  - exact He.
  - rewrite Hw, Hn, Nat2N.id. reflexivity.
  - lia.
  - lia.
Qed.

Lemma pow_mining_elapsed_witness :
  exists r w',
    pow_mining 26 "China-MY" 1 steady_world = Some (r, w') /\
    res_elapsed r = 1 - 0 /\
    trace w' = ([EvClock 0] ++ attempts "China-MY" 0 (S (N.to_nat (res_nonce r)))
                  ++ [EvClock 1])%list /\
    (0 <= res_elapsed r <-> 0 <= 1).
Proof.
  assert (H : { rw | pow_mining 26 "China-MY" 1 steady_world = Some rw }).
  { eexists. vm_compute. reflexivity. }
  destruct H as [[r w'] E]. exists r, w'. split; [exact E|].
  exact (pow_mining_elapsed 26 "China-MY" 1 steady_world r w' E).
Defined.

(** C8, as stated, fails when the wall clock is set back during the search:
    the elapsed time returned is negative. *)
Lemma pow_mining_negative_elapsed :
  exists r w',
    pow_mining 1 "China-MY" 0 set_back_world = Some (r, w') /\
    res_elapsed r < 0.
Proof.
  do 2 eexists. split.
  - apply pow_mining_nonpos. lia.
  - cbn. lia.
Qed.

(** C9: on the same inputs (and the same fuel) [find_pow_hash] returns the
    first three components of what [pow_mining] returns, and does not return
    when [pow_mining] does not. *)
Theorem find_pow_hash_pow_mining (fuel : nat) (nickname : string)
    (target_zeros : Z) (w : World) :
  find_pow_hash fuel nickname target_zeros
  = option_map (fun rw : mining_result * World => fst (fst rw))
      (pow_mining fuel nickname target_zeros w).
Proof.
  unfold find_pow_hash, pow_mining. cbn [time_time].
  apply find_pow_hash_loop_eq.
Qed.

Local Open Scope list_scope.
Local Open Scope Z_scope.

Arguments SHA256.digest : simpl never.
Arguments RSA.pss_hash : simpl never.
Arguments RSA.MGF1 : simpl never.

(** ** Text and bytes *)

Lemma Some_inj {A : Type} (a b : A) : Some a = Some b -> a = b.
Proof. intros H. now injection H. Qed.

Lemma ascii_of_byte_of_ascii (a : ascii) : ascii_of_byte (byte_of_ascii a) = a.
Proof.
  unfold ascii_of_byte, byte_of_ascii. rewrite N2Z.id. apply ascii_N_embedding.
Qed.

Lemma byte_of_ascii_is_byte (a : ascii) : is_byte (byte_of_ascii a).
Proof.
  unfold is_byte, byte_of_ascii. pose proof (N_ascii_bounded a). lia.
Qed.

Lemma byte_of_ascii_of_byte (b : Z) :
  is_byte b -> byte_of_ascii (ascii_of_byte b) = b.
Proof.
  unfold is_byte, byte_of_ascii, ascii_of_byte. intros Hb.
  rewrite N_ascii_embedding by lia. lia.
Qed.

Lemma encode_text_of_bytes (bs : bytes) :
  Forall is_byte bs -> encode (text_of_bytes bs) = bs.
Proof.
  unfold encode, text_of_bytes. rewrite list_ascii_of_string_of_list_ascii.
  induction 1 as [|b bs Hb _ IH]; cbn [List.map]; [reflexivity|].
  now rewrite byte_of_ascii_of_byte, IH.
Qed.

Lemma text_of_bytes_encode (t : string) : text_of_bytes (encode t) = t.
Proof.
  unfold encode, text_of_bytes. rewrite map_map.
  rewrite (map_ext _ (fun a => a)) by apply ascii_of_byte_of_ascii.
  rewrite map_id. apply string_of_list_ascii_of_string.
Qed.

Lemma encode_app (a b : string) : encode (a ++ b)%string = encode a ++ encode b.
Proof.
  unfold encode. induction a as [|c a IH]; cbn; [reflexivity | now rewrite IH].
Qed.

Lemma encode_is_byte (t : string) : Forall is_byte (encode t).
Proof.
  unfold encode. induction (list_ascii_of_string t) as [|c l IH]; cbn; constructor;
    [apply byte_of_ascii_is_byte | exact IH].
Qed.

(** ** UTF-8 *)

Lemma Return_inj {A : Type} (a b : A) : Return a = Return b -> a = b.
Proof. intros H. now injection H. Qed.

Lemma utf8_is_byte (c : Z) (bs : bytes) : Py.utf8 c = Some bs -> Forall is_byte bs.
Proof.
  unfold Py.utf8, Py.is_surrogate, is_byte.
  destruct (Z.ltb_spec c 0); [discriminate|].
  destruct (Z.ltb_spec 1114111 c); [discriminate|].
  cbn [orb].
  destruct ((55296 <=? c) && (c <=? 57343)); [discriminate|].
  destruct (Z.ltb_spec c 128).
  { intros H'. apply Some_inj in H'. subst bs. repeat (apply Forall_cons; [lia|]); apply Forall_nil. }
  destruct (Z.ltb_spec c 2048).
  { intros H'. apply Some_inj in H'. subst bs.
    pose proof (Z.mod_pos_bound c 64 ltac:(lia)).
    assert (0 <= c / 64 < 32) by (split; [apply Z.div_pos | apply Z.div_lt_upper_bound]; lia).
    repeat (apply Forall_cons; [lia|]); apply Forall_nil. }
  destruct (Z.ltb_spec c 65536).
  { intros H'. apply Some_inj in H'. subst bs.
    pose proof (Z.mod_pos_bound c 64 ltac:(lia)).
    pose proof (Z.mod_pos_bound (c / 64) 64 ltac:(lia)).
    assert (0 <= c / 4096 < 16) by (split; [apply Z.div_pos | apply Z.div_lt_upper_bound]; lia).
    repeat (apply Forall_cons; [lia|]); apply Forall_nil. }
  intros H'. apply Some_inj in H'. subst bs.
  pose proof (Z.mod_pos_bound c 64 ltac:(lia)).
  pose proof (Z.mod_pos_bound (c / 64) 64 ltac:(lia)).
  pose proof (Z.mod_pos_bound (c / 4096) 64 ltac:(lia)).
  assert (0 <= c / 262144 < 8) by (split; [apply Z.div_pos | apply Z.div_lt_upper_bound]; lia).
  repeat (apply Forall_cons; [lia|]); apply Forall_nil.
Qed.

Lemma Py_encode_is_byte (s : Py.str) (data : bytes) :
  Py.encode s = Return data -> Forall is_byte data.
Proof.
  revert data. induction s as [|c s IH]; intros data H; cbn [Py.encode] in H.
  - injection H as <-. constructor.
  - destruct (Py.utf8 c) as [bs|] eqn:Ec; [|discriminate].
    destruct (Py.encode s) as [rest|e]; [|discriminate].
    injection H as <-. apply Forall_app. split.
    + exact (utf8_is_byte c bs Ec).
    + apply IH. reflexivity.
Qed.

(** The only exception of [str.encode] is [UnicodeEncodeError]. *)
Lemma Py_encode_raises (s : Py.str) (e : exn) :
  Py.encode s = Raise e -> e = UnicodeEncodeError.
Proof.
  induction s as [|c s IH]; cbn [Py.encode]; [discriminate|].
  destruct (Py.utf8 c); [|intros H; now injection H].
  destruct (Py.encode s) as [rest|e']; [discriminate|].
  intros H. injection H as <-. apply IH. reflexivity.
Qed.

Lemma Py_encode_app (a b : Py.str) :
  Py.encode (a ++ b)
  = match Py.encode a, Py.encode b with
    | Return x, Return y => Return (x ++ y)
    | _, _ => Raise UnicodeEncodeError
    end.
Proof.
  induction a as [|c a IH]; cbn [Py.encode app].
  - destruct (Py.encode b) as [y|e] eqn:E; [reflexivity|].
    now rewrite (Py_encode_raises b e E).
  - destruct (Py.utf8 c) as [bs|]; [|reflexivity].
    rewrite IH.
    destruct (Py.encode a) as [x|e] eqn:Ea.
    + destruct (Py.encode b) as [y|e']; [now rewrite app_assoc | reflexivity].
    + reflexivity.
Qed.

Lemma Py_encode_of_text (t : string) :
  ascii_text t -> Py.encode (Py.of_text t) = Return (encode t).
Proof.
  unfold ascii_text, Py.of_text, encode.
  induction (list_ascii_of_string t) as [|c l IH]; cbn [List.map Py.encode];
    intros H; [reflexivity|].
  inversion H as [|? ? Hc Hl]; subst.
  unfold Py.utf8, Py.is_surrogate.
  destruct (Z.ltb_spec (byte_of_ascii c) 0); [lia|].
  destruct (Z.ltb_spec 1114111 (byte_of_ascii c)); [lia|].
  destruct (Z.leb_spec 55296 (byte_of_ascii c)); [lia|].
  cbn [orb andb].
  destruct (Z.ltb_spec (byte_of_ascii c) 128); [|lia].
  rewrite (IH Hl). reflexivity.
Qed.

Lemma string_of_uint_ascii (d : Decimal.uint) :
  ascii_text (NilEmpty.string_of_uint d).
Proof.
  unfold ascii_text, encode.
  induction d; cbn [NilEmpty.string_of_uint list_ascii_of_string List.map];
    try apply Forall_nil;
    (apply Forall_cons; [unfold byte_of_ascii; cbn; lia | assumption]).
Qed.

Lemma decimal_ascii (n : N) : ascii_text (decimal n).
Proof.
  unfold decimal, NilZero.string_of_uint.
  destruct (N.to_uint n) eqn:E; try (rewrite <- E; apply string_of_uint_ascii).
  unfold ascii_text. apply Forall_cons; [unfold byte_of_ascii; cbn; lia | apply Forall_nil].
Qed.

(** [f"{nickname}{nonce}".encode()] is the encoded nickname followed by the
    digits of the nonce. *)
Lemma Py_encode_content (seed : Py.str) (data : bytes) (n : N) :
  Py.encode seed = Return data ->
  Py.encode (seed ++ Py.of_text (decimal n)) = Return (data ++ encode (decimal n)).
Proof.
  intros H. rewrite Py_encode_app, H, Py_encode_of_text by apply decimal_ascii.
  reflexivity.
Qed.

Lemma Py_encode_content_raises (seed : Py.str) (e : exn) (n : N) :
  Py.encode seed = Raise e ->
  Py.encode (seed ++ Py.of_text (decimal n)) = Raise UnicodeEncodeError.
Proof. intros H. rewrite Py_encode_app, H. reflexivity. Qed.

(** ** The search on a [str] and on its encoded text *)

Lemma Py_mul_returns (memory : N) (s : string) (n : Z) :
  - 2 ^ 63 <= n <= 2 ^ 63 - 1 ->
  Z.of_nat (String.length s) * n <= Z.of_N memory ->
  Py.mul memory s n = Return (str_mul s n).
Proof.
  intros Hn Hm. unfold Py.mul.
  destruct (Z.ltb_spec n (- 2 ^ 63)); [lia|].
  destruct (Z.ltb_spec (2 ^ 63 - 1) n); [lia|].
  destruct (Z.ltb_spec (Z.of_N memory) (Z.of_nat (String.length s) * n)); [lia|].
  reflexivity.
Qed.

Lemma Py_mul_inv (memory : N) (s : string) (n : Z) (t : string) :
  Py.mul memory s n = Return t ->
  - 2 ^ 63 <= n <= 2 ^ 63 - 1 /\
  Z.of_nat (String.length s) * n <= Z.of_N memory /\
  t = str_mul s n.
Proof.
  unfold Py.mul.
  destruct (Z.ltb_spec n (- 2 ^ 63)); [discriminate|].
  destruct (Z.ltb_spec (2 ^ 63 - 1) n); [discriminate|].
  destruct (Z.ltb_spec (Z.of_N memory) (Z.of_nat (String.length s) * n));
    [discriminate|].
  cbn [orb]. intros H'. injection H' as <-. repeat split; lia.
Qed.

Lemma Py_pow_mining_loop_text (fuel : nat) (seed : Py.str) (data : bytes)
    (target : string) (t0 : Z) :
  Py.encode seed = Return data ->
  forall (n0 : N) (w : World),
    Py.pow_mining_loop fuel seed target t0 n0 w
    = option_map (fun rw : mining_result * World =>
                    (Return (Py.of_text_result seed (fst rw)), snd rw))
        (pow_mining_loop fuel (text_of_bytes data) target t0 n0 w).
Proof.
  intros Hseed. pose proof (Py_encode_is_byte seed data Hseed) as Hb.
  induction fuel as [|fuel IH]; intros n0 w; [reflexivity|].
  cbn [Py.pow_mining_loop pow_mining_loop sha256_hexdigest Py.sha256_hexdigest].
  rewrite (Py_encode_content seed data n0 Hseed).
  rewrite encode_app, (encode_text_of_bytes data Hb).
  assert (Ht : text_of_bytes (data ++ encode (decimal n0))
               = (text_of_bytes data ++ decimal n0)%string).
  { rewrite <- (text_of_bytes_encode (text_of_bytes data ++ decimal n0)).
    now rewrite encode_app, (encode_text_of_bytes data Hb). }
  rewrite Ht.
  destruct (startswith (SHA256.hexdigest (data ++ encode (decimal n0))) target).
  - reflexivity.
  - apply IH.
Qed.

(** On a seed that UTF-8 encodes and a target length that fits, [pow_mining]
    on the [str] returns what it returns on the encoded text. *)
Lemma Py_pow_mining_text (fuel : nat) (memory : N) (seed : Py.str) (data : bytes)
    (d : Z) (w : World) :
  Py.encode seed = Return data ->
  - 2 ^ 63 <= d <= 2 ^ 63 - 1 ->
  d <= Z.of_N memory ->
  Py.pow_mining fuel memory seed d w
  = option_map (fun rw : mining_result * World =>
                  (Return (Py.of_text_result seed (fst rw)), snd rw))
      (pow_mining fuel (text_of_bytes data) d w).
Proof.
  intros Hseed Hd Hm. unfold Py.pow_mining, pow_mining.
  rewrite Py_mul_returns by (cbn [String.length]; lia).
  cbn [time_time]. apply Py_pow_mining_loop_text. exact Hseed.
Qed.

Lemma Py_find_pow_hash_loop_text (fuel : nat) (seed : Py.str) (data : bytes)
    (target : string) :
  Py.encode seed = Return data ->
  forall n0 : N,
    Py.find_pow_hash_loop fuel seed target n0
    = option_map (fun r : N * string * string =>
                    Return (fst (fst r), seed ++ Py.of_text (decimal (fst (fst r))),
                            snd r))
        (find_pow_hash_loop fuel (text_of_bytes data) target n0).
Proof.
  intros Hseed. pose proof (Py_encode_is_byte seed data Hseed) as Hb.
  induction fuel as [|fuel IH]; intros n0; [reflexivity|].
  cbn [Py.find_pow_hash_loop find_pow_hash_loop].
  rewrite (Py_encode_content seed data n0 Hseed).
  rewrite encode_app, (encode_text_of_bytes data Hb).
  destruct (startswith (SHA256.hexdigest (data ++ encode (decimal n0))) target).
  - reflexivity.
  - apply IH.
Qed.

(** On a nickname that UTF-8 encodes and a target length that fits,
    [find_pow_hash] on the [str] returns what it returns on the encoded
    text. *)
Lemma Py_find_pow_hash_text (fuel : nat) (memory : N) (seed : Py.str)
    (data : bytes) (d : Z) :
  Py.encode seed = Return data ->
  - 2 ^ 63 <= d <= 2 ^ 63 - 1 ->
  d <= Z.of_N memory ->
  Py.find_pow_hash fuel memory seed d
  = option_map (fun r : N * string * string =>
                  Return (fst (fst r), seed ++ Py.of_text (decimal (fst (fst r))),
                          snd r))
      (find_pow_hash fuel (text_of_bytes data) d).
Proof.
  intros Hseed Hd Hm. unfold Py.find_pow_hash, find_pow_hash.
  rewrite Py_mul_returns by (cbn [String.length]; lia).
  apply Py_find_pow_hash_loop_text. exact Hseed.
Qed.

(** Out of the range of a machine index the repetition raises, before the
    clock is read. *)
Lemma Py_pow_mining_overflow (fuel : nat) (memory : N) (seed : Py.str) (d : Z)
    (w : World) :
  d < - 2 ^ 63 \/ 2 ^ 63 - 1 < d ->
  Py.pow_mining fuel memory seed d w = Some (Raise OverflowError, w).
Proof.
  intros Hd. unfold Py.pow_mining, Py.mul.
  destruct (Z.ltb_spec d (- 2 ^ 63)); [reflexivity|].
  destruct (Z.ltb_spec (2 ^ 63 - 1) d); [reflexivity | lia].
Qed.

(** A seed that UTF-8 cannot encode makes the first attempt raise, after the
    first reading of the clock and before any hash. *)
Lemma Py_pow_mining_unencodable (fuel : nat) (memory : N) (seed : Py.str)
    (e : exn) (d : Z) (w : World) :
  Py.encode seed = Raise e ->
  - 2 ^ 63 <= d <= 2 ^ 63 - 1 ->
  d <= Z.of_N memory ->
  Py.pow_mining (S fuel) memory seed d w
  = Some (Raise UnicodeEncodeError, snd (time_time w)).
Proof.
  intros Hseed Hd Hm. unfold Py.pow_mining.
  rewrite Py_mul_returns by (cbn [String.length]; lia).
  cbn [time_time Py.pow_mining_loop snd].
  rewrite (Py_encode_content_raises seed e 0 Hseed). reflexivity.
Qed.

(** A run that returns a result is a run on a seed that UTF-8 encodes, with
    a target length that fits, and the result is the one on the encoded
    text. *)
Lemma Py_pow_mining_inv (fuel : nat) (memory : N) (seed : Py.str) (d : Z)
    (w : World) (r : Py.mining_result) (w' : World) :
  Py.pow_mining fuel memory seed d w = Some (Return r, w') ->
  exists (data : bytes) (r0 : mining_result),
    Py.encode seed = Return data /\
    - 2 ^ 63 <= d <= 2 ^ 63 - 1 /\
    d <= Z.of_N memory /\
    pow_mining fuel (text_of_bytes data) d w = Some (r0, w') /\
    r = Py.of_text_result seed r0.
Proof.
  intros H.
  assert (Hmul : exists t, Py.mul memory "0" d = Return t).
  { unfold Py.pow_mining in H. destruct (Py.mul memory "0" d) as [t|e]; [eauto|].
    discriminate H. }
  destruct Hmul as [t Ht]. apply Py_mul_inv in Ht.
  destruct Ht as (Hd & Hm & _). cbn [String.length] in Hm.
  destruct (Py.encode seed) as [data|e] eqn:Hseed.
  - rewrite (Py_pow_mining_text fuel memory seed data d w Hseed Hd) in H by lia.
    destruct (pow_mining fuel (text_of_bytes data) d w) as [[r0 w0]|] eqn:E0;
      [|discriminate H].
    cbn [option_map fst snd] in H. injection H as Hr Hw. subst r w0.
    exists data, r0. repeat split; try lia; try reflexivity. exact E0.
  - destruct fuel as [|fuel].
    + unfold Py.pow_mining in H.
      rewrite Py_mul_returns in H by (cbn [String.length]; lia). discriminate H.
    + rewrite (Py_pow_mining_unencodable fuel memory seed e d w Hseed Hd) in H by lia.
      discriminate H.
Qed.

(** With a target of zero or fewer characters the first attempt wins. *)
Lemma Py_pow_mining_nonpos (fuel : nat) (memory : N) (seed : Py.str)
    (data : bytes) (d : Z) (w : World) :
  Py.encode seed = Return data ->
  - 2 ^ 63 <= d <= 0 ->
  Py.pow_mining (S fuel) memory seed d w
  = Some (Return (0%N, seed ++ Py.of_text "0",
                  SHA256.hexdigest (data ++ encode "0"),
                  clock w (S (reads w)) - clock w (reads w)),
          mkWorld (clock w) (S (S (reads w)))
            (trace w ++ [EvClock (clock w (reads w))]
               ++ [EvHash (text_of_bytes data ++ "0")%string]
               ++ [EvClock (clock w (S (reads w)))])).
Proof.
  intros Hseed Hd.
  rewrite (Py_pow_mining_text (S fuel) memory seed data d w Hseed) by lia.
  rewrite pow_mining_nonpos by lia.
  cbn [option_map fst snd Py.of_text_result].
  rewrite encode_app, (encode_text_of_bytes data (Py_encode_is_byte seed data Hseed)).
  reflexivity.
Qed.

(** ** The claims on the search, on Python values *)

(** C7 (as the code has it): with difficulty 0 the search returns on its
    first attempt, for every seed that UTF-8 can encode: the counter is 0
    and the committed input is the seed followed by "0"; one hash is
    computed between the two clock readings. *)
Theorem pow_mining_difficulty_zero (fuel : nat) (memory : N) (seed : Py.str)
    (data : bytes) (w : World) :
  Py.encode seed = Return data ->
  Py.pow_mining (S fuel) memory seed 0 w
  = Some (Return (0%N, seed ++ Py.of_text "0",
                  SHA256.hexdigest (data ++ encode "0"),
                  clock w (S (reads w)) - clock w (reads w)),
          mkWorld (clock w) (S (S (reads w)))
            (trace w ++ [EvClock (clock w (reads w))]
               ++ [EvHash (text_of_bytes data ++ "0")%string]
               ++ [EvClock (clock w (S (reads w)))])).
Proof.
  intros Hseed. apply Py_pow_mining_nonpos; [exact Hseed | lia].
Qed.

Lemma pow_mining_difficulty_zero_witness :
  Py.encode (Py.of_text "China-MY") = Return (encode "China-MY") /\
  Py.pow_mining 1 1024 (Py.of_text "China-MY") 0 steady_world
  = Some (Return (0%N, Py.of_text "China-MY" ++ Py.of_text "0",
                  SHA256.hexdigest (encode "China-MY" ++ encode "0"),
                  clock steady_world 1 - clock steady_world 0),
          mkWorld (clock steady_world) 2
            (trace steady_world ++ [EvClock (clock steady_world 0)]
               ++ [EvHash (text_of_bytes (encode "China-MY") ++ "0")%string]
               ++ [EvClock (clock steady_world 1)])).
Proof.
  assert (H : Py.encode (Py.of_text "China-MY") = Return (encode "China-MY"))
    by reflexivity.
  split; [exact H|].
  exact (pow_mining_difficulty_zero 0 1024 (Py.of_text "China-MY")
           (encode "China-MY") steady_world H).
Defined.

(** C7, as stated, fails for the seed ['\ud800'], a lone surrogate: the first
    attempt raises [UnicodeEncodeError] when it encodes its input, after the
    first reading of the clock, and no run returns. *)
Lemma pow_mining_surrogate_seed_raises :
  Py.pow_mining 1 1024 [55296] 0 steady_world
  = Some (Raise UnicodeEncodeError, mkWorld (clock steady_world) 1 [EvClock 0]) /\
  ~ exists fuel r w',
      Py.pow_mining fuel 1024 [55296] 0 steady_world = Some (Return r, w').
Proof.
  split; [reflexivity|].
  intros (fuel & r & w' & H). apply Py_pow_mining_inv in H.
  destruct H as (data & r0 & Hseed & _). discriminate Hseed.
Qed.

(** C10 (as the code has it): for a seed that UTF-8 can encode and a target
    length from -2^63 to 0 the target is the empty text, so the search returns
    counter 0 on its first attempt, exactly as with difficulty 0. *)
Theorem pow_mining_nonpositive_target (fuel : nat) (memory : N) (seed : Py.str)
    (data : bytes) (d : Z) (w : World) :
  Py.encode seed = Return data ->
  - 2 ^ 63 <= d <= 0 ->
  Py.mul memory "0" d = Return "" /\
  Py.pow_mining (S fuel) memory seed d w = Py.pow_mining (S fuel) memory seed 0 w /\
  exists r w',
    Py.pow_mining (S fuel) memory seed d w = Some (Return r, w') /\
    Py.res_nonce r = 0%N /\
    Py.res_content r = seed ++ Py.of_text "0" /\
    w' = mkWorld (clock w) (S (S (reads w)))
           (trace w ++ [EvClock (clock w (reads w))]
              ++ [EvHash (text_of_bytes data ++ "0")%string]
              ++ [EvClock (clock w (S (reads w)))]).
Proof.
  intros Hseed Hd.
  split.
  { rewrite Py_mul_returns by (cbn [String.length]; lia).
    now rewrite str_mul_nonpos by lia. }
  rewrite (Py_pow_mining_nonpos fuel memory seed data d w Hseed Hd).
  rewrite (Py_pow_mining_nonpos fuel memory seed data 0 w Hseed) by lia.
  split; [reflexivity|].
  do 2 eexists. split; [reflexivity|]. repeat split.
Qed.

Lemma pow_mining_nonpositive_target_witness :
  Py.encode (Py.of_text "China-MY") = Return (encode "China-MY") /\
  - 2 ^ 63 <= - 2 ^ 63 <= 0 /\
  Py.mul 1024 "0" (- 2 ^ 63) = Return "" /\
  Py.pow_mining 1 1024 (Py.of_text "China-MY") (- 2 ^ 63) steady_world
  = Py.pow_mining 1 1024 (Py.of_text "China-MY") 0 steady_world /\
  exists r w',
    Py.pow_mining 1 1024 (Py.of_text "China-MY") (- 2 ^ 63) steady_world
    = Some (Return r, w') /\
    Py.res_nonce r = 0%N /\
    Py.res_content r = Py.of_text "China-MY" ++ Py.of_text "0" /\
    w' = mkWorld (clock steady_world) 2
           (trace steady_world ++ [EvClock (clock steady_world 0)]
              ++ [EvHash (text_of_bytes (encode "China-MY") ++ "0")%string]
              ++ [EvClock (clock steady_world 1)]).
Proof.
  assert (H1 : Py.encode (Py.of_text "China-MY") = Return (encode "China-MY"))
    by reflexivity.
  assert (H2 : - 2 ^ 63 <= - 2 ^ 63 <= 0) by lia.
  split; [exact H1|]. split; [exact H2|].
  exact (pow_mining_nonpositive_target 0 1024 (Py.of_text "China-MY")
           (encode "China-MY") (- 2 ^ 63) steady_world H1 H2).
Defined.

(** C10, as stated, fails at a target length of -2^63 - 1: ['0' * target_zeros]
    raises [OverflowError] before the clock is read, and no run returns. *)
Lemma pow_mining_target_overflow :
  Py.pow_mining 1 1024 (Py.of_text "China-MY") (- 2 ^ 63 - 1) steady_world
  = Some (Raise OverflowError, steady_world) /\
  ~ exists fuel r w',
      Py.pow_mining fuel 1024 (Py.of_text "China-MY") (- 2 ^ 63 - 1) steady_world
      = Some (Return r, w').
Proof.
  split; [reflexivity|].
  intros (fuel & r & w' & H).
  rewrite Py_pow_mining_overflow in H by lia. discriminate H.
Qed.

(** ** Big-endian bytes *)

Lemma pow256_pos (n : nat) : 0 < 256 ^ Z.of_nat n.
Proof. apply Z.pow_pos_nonneg; lia. Qed.

Lemma pow256_S (n : nat) : 256 ^ Z.of_nat (S n) = 256 * 256 ^ Z.of_nat n.
Proof. rewrite Nat2Z.inj_succ, Z.pow_succ_r; lia. Qed.

Lemma be_value_fold (bs : bytes) (acc : Z) :
  fold_left (fun a b => a * 256 + b) bs acc
  = acc * 256 ^ Z.of_nat (List.length bs) + SHA256.be_value bs.
Proof.
  unfold SHA256.be_value. revert acc.
  induction bs as [|b bs IH]; intros acc.
  - cbn. lia.
  - cbn [fold_left List.length]. rewrite IH, (IH (0 * 256 + b)), pow256_S. ring.
Qed.

Lemma be_value_cons (b : Z) (bs : bytes) :
  SHA256.be_value (b :: bs) = b * 256 ^ Z.of_nat (List.length bs) + SHA256.be_value bs.
Proof.
  unfold SHA256.be_value at 1. cbn [fold_left]. rewrite be_value_fold. ring.
Qed.

Lemma be_value_bound (bs : bytes) :
  Forall is_byte bs -> 0 <= SHA256.be_value bs < 256 ^ Z.of_nat (List.length bs).
Proof.
  induction 1 as [|b bs Hb _ IH].
  - cbn. lia.
  - rewrite be_value_cons. cbn [List.length]. rewrite pow256_S.
    unfold is_byte in Hb. pose proof (pow256_pos (List.length bs)). nia.
Qed.

Lemma be_bytes_is_byte (n : nat) (x : Z) : Forall is_byte (SHA256.be_bytes n x).
Proof.
  induction n as [|n IH]; cbn [SHA256.be_bytes]; constructor; [|exact IH].
  unfold is_byte. apply Z.mod_pos_bound. lia.
Qed.

Lemma be_value_bytes_mod (n : nat) (x : Z) :
  0 <= x -> SHA256.be_value (SHA256.be_bytes n x) = x mod 256 ^ Z.of_nat n.
Proof.
  intros Hx. induction n as [|n IH].
  - cbn. now rewrite Z.mod_1_r.
  - cbn [SHA256.be_bytes]. rewrite be_value_cons, be_bytes_length, IH.
    rewrite Z.shiftr_div_pow2 by lia.
    replace (2 ^ (8 * Z.of_nat n)) with (256 ^ Z.of_nat n)
      by (change 256 with (2 ^ 8); rewrite <- Z.pow_mul_r by lia; reflexivity).
    rewrite pow256_S, (Z.mul_comm 256).
    pose proof (pow256_pos n).
    rewrite Z.rem_mul_r by lia. lia.
Qed.

Lemma be_value_bytes (n : nat) (x : Z) :
  0 <= x < 256 ^ Z.of_nat n -> SHA256.be_value (SHA256.be_bytes n x) = x.
Proof.
  intros Hx. rewrite be_value_bytes_mod by lia. apply Z.mod_small. exact Hx.
Qed.

Lemma be_value_inj (a b : bytes) :
  Forall is_byte a -> Forall is_byte b -> List.length a = List.length b ->
  SHA256.be_value a = SHA256.be_value b -> a = b.
Proof.
  intros Ha. revert b.
  induction Ha as [|x a Hx Ha IH]; intros b Hb Hlen Hv.
  - destruct b; [reflexivity | discriminate].
  - destruct b as [|y b]; [discriminate|].
    inversion Hb as [|? ? Hy Hb']; subst.
    cbn [List.length] in Hlen. injection Hlen as Hlen.
    rewrite !be_value_cons, <- Hlen in Hv.
    pose proof (be_value_bound a Ha) as Ba.
    pose proof (be_value_bound b Hb') as Bb. rewrite <- Hlen in Bb.
    pose proof (pow256_pos (List.length a)) as Hp.
    assert (x = y) by nia. subst y.
    f_equal. apply IH; [exact Hb' | exact Hlen | lia].
Qed.

Lemma be_bytes_value (bs : bytes) :
  Forall is_byte bs -> SHA256.be_bytes (List.length bs) (SHA256.be_value bs) = bs.
Proof.
  intros Hbs. apply be_value_inj.
  - apply be_bytes_is_byte.
  - exact Hbs.
  - apply be_bytes_length.
  - apply be_value_bytes. apply be_value_bound. exact Hbs.
Qed.

Lemma digest_is_byte (msg : bytes) : Forall is_byte (SHA256.digest msg).
Proof.
  unfold SHA256.digest, SHA256.state_bytes.
  repeat (apply Forall_app; split); apply be_bytes_is_byte.
Qed.

(** ** Masks *)

Lemma lxor_is_byte (x y : Z) : is_byte x -> is_byte y -> is_byte (Z.lxor x y).
Proof.
  unfold is_byte. intros Hx Hy.
  assert (H0 : 0 <= Z.lxor x y) by (apply Z.lxor_nonneg; lia).
  split; [exact H0|].
  destruct (Z.eq_dec (Z.lxor x y) 0) as [->|Hnz]; [lia|].
  change 256 with (2 ^ 8). apply Z.log2_lt_pow2; [lia|].
  pose proof (Z.log2_lxor x y ltac:(lia) ltac:(lia)) as Hl.
  assert (Hlx : Z.log2 x < 8).
  { destruct (Z.eq_dec x 0) as [->|]; [cbn; lia|].
    apply Z.log2_lt_pow2; [lia | change (2 ^ 8) with 256; lia]. }
  assert (Hly : Z.log2 y < 8).
  { destruct (Z.eq_dec y 0) as [->|]; [cbn; lia|].
    apply Z.log2_lt_pow2; [lia | change (2 ^ 8) with 256; lia]. }
  lia.
Qed.

Lemma land_is_byte (x k : Z) : is_byte x -> 0 <= k -> is_byte (Z.land x k).
Proof.
  unfold is_byte. intros Hx Hk.
  assert (H0 : 0 <= Z.land x k) by (apply Z.land_nonneg; lia).
  split; [exact H0|].
  destruct (Z.eq_dec (Z.land x k) 0) as [->|Hnz]; [lia|].
  change 256 with (2 ^ 8). apply Z.log2_lt_pow2; [lia|].
  pose proof (Z.log2_land x k ltac:(lia) Hk) as Hl.
  assert (Hlx : Z.log2 x < 8).
  { destruct (Z.eq_dec x 0) as [->|]; [cbn; lia|].
    apply Z.log2_lt_pow2; [lia | change (2 ^ 8) with 256; lia]. }
  lia.
Qed.

Lemma xor_bytes_length (a b : bytes) :
  (List.length a <= List.length b)%nat ->
  List.length (RSA.xor_bytes a b) = List.length a.
Proof.
  revert b. induction a as [|x a IH]; intros [|y b] H; cbn in *; try lia.
  rewrite IH; lia.
Qed.

Lemma xor_bytes_involutive (a b : bytes) :
  (List.length a <= List.length b)%nat ->
  RSA.xor_bytes (RSA.xor_bytes a b) b = a.
Proof.
  revert b. induction a as [|x a IH]; intros [|y b] H; cbn in *; try lia.
  - reflexivity.
  - reflexivity.
  - rewrite IH by lia. f_equal.
    rewrite Z.lxor_assoc, Z.lxor_nilpotent, Z.lxor_0_r. reflexivity.
Qed.

Lemma xor_bytes_is_byte (a b : bytes) :
  Forall is_byte a -> Forall is_byte b -> Forall is_byte (RSA.xor_bytes a b).
Proof.
  intros Ha. revert b. induction Ha as [|x a Hx Ha IH]; intros b Hb.
  - constructor.
  - destruct Hb as [|y b Hy Hb]; cbn; constructor.
    + apply lxor_is_byte; assumption.
    + apply IH. exact Hb.
Qed.

Lemma clear_top_length (z : Z) (bs : bytes) :
  List.length (RSA.clear_top z bs) = List.length bs.
Proof. destruct bs; reflexivity. Qed.

Lemma clear_top_is_byte (z : Z) (bs : bytes) :
  Forall is_byte bs -> Forall is_byte (RSA.clear_top z bs).
Proof.
  intros [|b rest Hb Hrest]; cbn; constructor; [|exact Hrest].
  apply land_is_byte; [exact Hb|]. apply Z.shiftr_nonneg. lia.
Qed.

(** The cleared bits are zero. *)
Lemma clear_top_high (z b : Z) :
  0 <= z <= 8 -> Z.shiftr (Z.land b (Z.shiftr 255 z)) (8 - z) = 0.
Proof.
  intros Hz. apply Z.bits_inj'. intros i Hi.
  rewrite Z.bits_0, Z.shiftr_spec, Z.land_spec, Z.shiftr_spec by lia.
  change 255 with (Z.ones 8).
  rewrite (Z.ones_spec_high 8) by lia. apply andb_false_r.
Qed.

(** Masking, clearing, unmasking and clearing again gives back a byte whose
    cleared bits were zero. *)
Lemma unmask_byte (x m k : Z) :
  Z.land x k = x -> Z.land (Z.lxor (Z.land (Z.lxor x m) k) m) k = x.
Proof.
  intros Hx. rewrite <- Hx at 2.
  apply Z.bits_inj'. intros i Hi.
  rewrite !Z.land_spec, !Z.lxor_spec, !Z.land_spec, !Z.lxor_spec.
  destruct (Z.testbit x i), (Z.testbit m i), (Z.testbit k i); reflexivity.
Qed.

Lemma unmask (z : Z) (x : Z) (rest mask : bytes) :
  Z.land x (Z.shiftr 255 z) = x ->
  (List.length (x :: rest) <= List.length mask)%nat ->
  RSA.clear_top z (RSA.xor_bytes (RSA.clear_top z (RSA.xor_bytes (x :: rest) mask)) mask)
  = x :: rest.
Proof.
  intros Hx Hlen. destruct mask as [|m mask]; cbn in Hlen; [lia|].
  cbn [RSA.xor_bytes RSA.clear_top].
  rewrite unmask_byte by exact Hx.
  rewrite xor_bytes_involutive by lia. reflexivity.
Qed.

Lemma land_small_mask (x z : Z) :
  0 <= z <= 7 -> x = 0 \/ x = 1 -> Z.land x (Z.shiftr 255 z) = x.
Proof.
  intros Hz [-> | ->]; [reflexivity|].
  assert (z = 0 \/ z = 1 \/ z = 2 \/ z = 3 \/ z = 4 \/ z = 5 \/ z = 6 \/ z = 7)
    as H by lia.
  destruct H as [->|[->|[->|[->|[->|[->|[->| ->]]]]]]]; reflexivity.
Qed.

(** ** MGF1 *)

Lemma mgf1_blocks_length (seed : bytes) (count counter : nat) :
  List.length (RSA.mgf1_blocks seed counter count) = (32 * count)%nat.
Proof.
  revert counter. induction count as [|count IH]; intros counter; cbn [RSA.mgf1_blocks].
  - reflexivity.
  - rewrite length_app, digest_length, IH. lia.
Qed.

Lemma MGF1_length (seed : bytes) (maskLen : nat) :
  List.length (RSA.MGF1 seed maskLen) = maskLen.
Proof.
  unfold RSA.MGF1. rewrite length_firstn, mgf1_blocks_length.
  unfold RSA.hLen.
  pose proof (Nat.div_mod_eq (maskLen + 32 - 1) 32) as H.
  pose proof (Nat.mod_upper_bound (maskLen + 32 - 1) 32 ltac:(lia)) as H'.
  lia.
Qed.

Lemma mgf1_blocks_is_byte (seed : bytes) (count counter : nat) :
  Forall is_byte (RSA.mgf1_blocks seed counter count).
Proof.
  revert counter. induction count as [|count IH]; intros counter; cbn [RSA.mgf1_blocks].
  - constructor.
  - apply Forall_app. split; [apply digest_is_byte | apply IH].
Qed.

Lemma Forall_is_byte_firstn (n : nat) (bs : bytes) :
  Forall is_byte bs -> Forall is_byte (firstn n bs).
Proof.
  intros H. apply Forall_forall. intros x Hx.
  rewrite Forall_forall in H. apply H.
  rewrite <- (firstn_skipn n bs). apply in_or_app. now left.
Qed.

Lemma MGF1_is_byte (seed : bytes) (maskLen : nat) :
  Forall is_byte (RSA.MGF1 seed maskLen).
Proof. unfold RSA.MGF1. apply Forall_is_byte_firstn. apply mgf1_blocks_is_byte. Qed.

Lemma bytes_eqb_eq (a b : bytes) : RSA.bytes_eqb a b = true <-> a = b.
Proof.
  revert b. induction a as [|x a IH]; intros [|y b]; cbn; split; intros H;
    try reflexivity; try discriminate.
  - apply andb_true_iff in H. destruct H as [Hxy Hab].
    apply Z.eqb_eq in Hxy. apply IH in Hab. congruence.
  - injection H as -> ->. rewrite Z.eqb_refl. apply IH. reflexivity.
Qed.

(** ** EMSA-PSS *)

Lemma firstn_app_exact {A : Type} (n : nat) (l1 l2 : list A) :
  List.length l1 = n -> firstn n (l1 ++ l2) = l1.
Proof.
  intros <-. rewrite firstn_app, Nat.sub_diag, firstn_all. cbn.
  apply app_nil_r.
Qed.

Lemma skipn_app_exact {A : Type} (n : nat) (l1 l2 : list A) :
  List.length l1 = n -> skipn n (l1 ++ l2) = l2.
Proof.
  intros <-. rewrite skipn_app, Nat.sub_diag, skipn_all. reflexivity.
Qed.

Lemma nth_app_exact {A : Type} (n : nat) (l1 l2 : list A) (x d : A) :
  List.length l1 = n -> nth n (l1 ++ x :: l2) d = x.
Proof.
  intros <-. rewrite app_nth2 by lia. now rewrite Nat.sub_diag.
Qed.

Lemma forallb_repeat_zero (n : nat) : forallb (Z.eqb 0) (repeat 0 n) = true.
Proof. induction n as [|n IH]; [reflexivity | exact IH]. Qed.

Lemma pss_hash_length (M salt : bytes) : List.length (RSA.pss_hash M salt) = 32%nat.
Proof. apply digest_length. Qed.

Lemma emLen_of_spec (emBits : Z) :
  1 <= emBits ->
  0 <= 8 * Z.of_nat (RSA.emLen_of emBits) - emBits <= 7 /\
  (1 <= RSA.emLen_of emBits)%nat.
Proof.
  intros H. unfold RSA.emLen_of.
  pose proof (Z.div_mod (emBits + 7) 8 ltac:(lia)) as Hd.
  pose proof (Z.mod_pos_bound (emBits + 7) 8 ltac:(lia)) as Hm.
  rewrite Z2Nat.id by lia. lia.
Qed.

Lemma emsa_pss_encode_inv (M salt EM : bytes) (emBits : Z) :
  RSA.emsa_pss_encode M emBits salt = Some EM ->
  (RSA.hLen + List.length salt + 2 <= RSA.emLen_of emBits)%nat /\
  EM = RSA.clear_top (8 * Z.of_nat (RSA.emLen_of emBits) - emBits)
         (RSA.xor_bytes (pss_DB (RSA.emLen_of emBits) salt)
            (RSA.MGF1 (RSA.pss_hash M salt) (RSA.emLen_of emBits - RSA.hLen - 1)))
       ++ RSA.pss_hash M salt ++ [188].
Proof.
  unfold RSA.emsa_pss_encode. cbv zeta.
  destruct (Nat.ltb_spec (RSA.emLen_of emBits) (RSA.hLen + List.length salt + 2))
    as [Hlt|Hge]; [discriminate|].
  intros H. apply Some_inj in H. split; [exact Hge | symmetry; exact H].
Qed.

Lemma pss_DB_length (emLen : nat) (salt : bytes) :
  (RSA.hLen + List.length salt + 2 <= emLen)%nat ->
  List.length (pss_DB emLen salt) = (emLen - RSA.hLen - 1)%nat.
Proof.
  intros H. unfold pss_DB. rewrite !length_app, repeat_length. cbn [List.length].
  unfold RSA.hLen in *. lia.
Qed.

Lemma pss_DB_head (emLen : nat) (salt : bytes) :
  exists x rest, pss_DB emLen salt = x :: rest /\ (x = 0 \/ x = 1).
Proof.
  unfold pss_DB.
  destruct (emLen - List.length salt - RSA.hLen - 2)%nat as [|n]; cbn; eauto.
Qed.

(** Verifying an encoded message against another message compares the two
    hashes H. *)
Lemma leading_zeros_pad (n : nat) (salt : bytes) :
  RSA.leading_zeros (repeat 0 n ++ 1 :: salt) = n.
Proof. induction n as [|n IH]; cbn; [reflexivity | now rewrite IH]. Qed.

Lemma emsa_pss_verify_encode (M M' salt EM : bytes) (emBits : Z)
    (sLen : option nat) :
  1 <= emBits ->
  sLen = None \/ sLen = Some (List.length salt) ->
  RSA.emsa_pss_encode M emBits salt = Some EM ->
  RSA.emsa_pss_verify M' EM emBits sLen
  = RSA.bytes_eqb (RSA.pss_hash M salt) (RSA.pss_hash M' salt).
Proof.
  intros Hbits HsLen Henc.
  destruct (emsa_pss_encode_inv _ _ _ _ Henc) as [Hlen ->].
  destruct (emLen_of_spec emBits Hbits) as [Hz Hpos].
  unfold RSA.emsa_pss_verify. cbv zeta.
  set (emLen := RSA.emLen_of emBits) in *.
  set (z := 8 * Z.of_nat emLen - emBits) in *.
  set (H := RSA.pss_hash M salt).
  set (dbLen := (emLen - RSA.hLen - 1)%nat).
  set (mask := RSA.MGF1 H dbLen).
  set (DB := pss_DB emLen salt).
  set (mDB := RSA.clear_top z (RSA.xor_bytes DB mask)).
  assert (HDB : List.length DB = dbLen) by (apply pss_DB_length; exact Hlen).
  assert (Hmask : List.length mask = dbLen) by apply MGF1_length.
  assert (HmDB : List.length mDB = dbLen).
  { unfold mDB. rewrite clear_top_length, xor_bytes_length; lia. }
  assert (HH : List.length H = 32%nat) by apply pss_hash_length.
  destruct (Nat.ltb_spec emLen
              (RSA.hLen + match sLen with Some n => n | None => O end + 2))
    as [Hlt|_]; [destruct HsLen; subst sLen; lia|].
  (* the trailer byte *)
  replace (nth (emLen - 1) (mDB ++ H ++ [188]) 0) with 188.
  2:{ rewrite app_assoc. symmetry. apply nth_app_exact.
      rewrite length_app, HmDB, HH. unfold dbLen, RSA.hLen in *. lia. }
  rewrite Z.eqb_refl. cbn [negb].
  (* maskedDB and H *)
  rewrite (firstn_app_exact dbLen mDB _ HmDB).
  rewrite (skipn_app_exact dbLen mDB _ HmDB).
  rewrite (firstn_app_exact RSA.hLen H _ HH).
  fold mask.
  (* the leftmost bits *)
  destruct (pss_DB_head emLen salt) as (x & rest & HDBeq & Hx). fold DB in HDBeq.
  assert (Hmasknz : exists m mask', mask = m :: mask').
  { destruct mask as [|m mask']; [|eauto].
    rewrite HDBeq in HDB. cbn in HDB, Hmask. lia. }
  destruct Hmasknz as (m & mask' & Hmaskeq).
  replace (nth 0 mDB 0) with (Z.land (Z.lxor x m) (Z.shiftr 255 z))
    by (unfold mDB; rewrite HDBeq, Hmaskeq; reflexivity).
  rewrite clear_top_high by lia. cbn [Z.eqb negb].
  (* unmasking *)
  replace (RSA.clear_top z (RSA.xor_bytes mDB mask)) with DB.
  2:{ unfold mDB. rewrite HDBeq. symmetry. apply unmask.
      - apply land_small_mask; [lia | exact Hx].
      - rewrite <- HDBeq. lia. }
  (* padding, separator and salt *)
  set (padLen := (emLen - List.length salt - RSA.hLen - 2)%nat).
  assert (HDBdef : DB = repeat 0 padLen ++ 1 :: salt) by reflexivity.
  rewrite HDBdef.
  replace (match sLen with
           | Some n => (emLen - RSA.hLen - n - 2)%nat
           | None => RSA.leading_zeros (repeat 0 padLen ++ 1 :: salt)
           end) with padLen
    by (destruct HsLen; subst sLen;
        [now rewrite leading_zeros_pad | unfold padLen; lia]).
  rewrite (firstn_app_exact padLen) by apply repeat_length.
  rewrite forallb_repeat_zero. cbn [negb].
  rewrite (nth_app_exact padLen) by apply repeat_length.
  cbn [Z.eqb Pos.eqb negb].
  replace (repeat 0 padLen ++ 1 :: salt) with ((repeat 0 padLen ++ [1]) ++ salt)
    by (rewrite <- app_assoc; reflexivity).
  rewrite (skipn_app_exact (padLen + 1))
    by (rewrite length_app, repeat_length; reflexivity).
  reflexivity.
Qed.

Lemma emsa_pss_encode_length (M salt EM : bytes) (emBits : Z) :
  RSA.emsa_pss_encode M emBits salt = Some EM ->
  List.length EM = RSA.emLen_of emBits.
Proof.
  intros Henc. destruct (emsa_pss_encode_inv _ _ _ _ Henc) as [Hlen ->].
  rewrite !length_app, clear_top_length, xor_bytes_length, pss_hash_length.
  - rewrite pss_DB_length by exact Hlen. cbn [List.length].
    unfold RSA.hLen in *. lia.
  - rewrite pss_DB_length by exact Hlen. rewrite MGF1_length. lia.
Qed.

Lemma pss_DB_is_byte (emLen : nat) (salt : bytes) :
  Forall is_byte salt -> Forall is_byte (pss_DB emLen salt).
Proof.
  intros Hs. unfold pss_DB. apply Forall_app. split.
  - apply Forall_forall. intros x Hx. apply repeat_spec in Hx. subst.
    unfold is_byte. lia.
  - constructor; [unfold is_byte; lia | exact Hs].
Qed.

Lemma emsa_pss_encode_is_byte (M salt EM : bytes) (emBits : Z) :
  Forall is_byte salt ->
  RSA.emsa_pss_encode M emBits salt = Some EM ->
  Forall is_byte EM.
Proof.
  intros Hs Henc. destruct (emsa_pss_encode_inv _ _ _ _ Henc) as [Hlen ->].
  apply Forall_app; split; [|apply Forall_app; split].
  - apply clear_top_is_byte, xor_bytes_is_byte;
      [apply pss_DB_is_byte; exact Hs | apply MGF1_is_byte].
  - apply digest_is_byte.
  - constructor; [unfold is_byte; lia | constructor].
Qed.

(** The encoded message, read as an integer, has at most [emBits] bits. *)
Lemma emsa_pss_encode_bound (M salt EM : bytes) (emBits : Z) :
  1 <= emBits ->
  Forall is_byte salt ->
  RSA.emsa_pss_encode M emBits salt = Some EM ->
  0 <= RSA.OS2IP EM < 2 ^ emBits.
Proof.
  intros Hbits Hs Henc.
  pose proof (emsa_pss_encode_is_byte _ _ _ _ Hs Henc) as HEM.
  pose proof (emsa_pss_encode_length _ _ _ _ Henc) as HEMlen.
  destruct (emsa_pss_encode_inv _ _ _ _ Henc) as [Hlen HEMeq].
  destruct (emLen_of_spec emBits Hbits) as [Hz Hpos].
  set (emLen := RSA.emLen_of emBits) in *.
  set (z := 8 * Z.of_nat emLen - emBits) in *.
  unfold RSA.OS2IP. split; [apply be_value_bound; exact HEM|].
  (* the leftmost byte is below 2^(8-z) *)
  destruct (pss_DB_head emLen salt) as (x & rest & HDBeq & Hx).
  pose proof (pss_DB_length emLen salt Hlen) as HDBlen.
  pose proof (MGF1_length (RSA.pss_hash M salt) (emLen - RSA.hLen - 1)) as Hmask.
  destruct (RSA.MGF1 (RSA.pss_hash M salt) (emLen - RSA.hLen - 1)) as [|m mask'] eqn:Em.
  { rewrite HDBeq in HDBlen. cbn in HDBlen, Hmask. lia. }
  rewrite HDBeq in HEMeq. cbn [RSA.xor_bytes RSA.clear_top] in HEMeq.
  rewrite <- app_comm_cons in HEMeq.
  set (tl := RSA.xor_bytes rest mask' ++ RSA.pss_hash M salt ++ [188]) in HEMeq.
  set (b := Z.land (Z.lxor x m) (Z.shiftr 255 z)) in HEMeq.
  assert (Hb : 0 <= b < 2 ^ (8 - z)).
  { pose proof (clear_top_high z (Z.lxor x m) ltac:(lia)) as Hhigh. fold b in Hhigh.
    rewrite HEMeq in HEM. inversion HEM as [|? ? Hb0 _]; subst.
    unfold is_byte in Hb0. split; [lia|].
    rewrite Z.shiftr_div_pow2 in Hhigh by lia.
    apply Z.div_small_iff in Hhigh; [|apply Z.pow_nonzero; lia].
    destruct Hhigh as [Hh|Hh]; [lia|].
    pose proof (Z.pow_pos_nonneg 2 (8 - z) ltac:(lia) ltac:(lia)). lia. }
  rewrite HEMeq, be_value_cons.
  assert (Htl : Forall is_byte tl) by (rewrite HEMeq in HEM; now inversion HEM).
  pose proof (be_value_bound tl Htl) as Btl.
  assert (Hlt : List.length tl = (emLen - 1)%nat).
  { rewrite HEMeq in HEMlen. cbn [List.length] in HEMlen. lia. }
  rewrite Hlt in *.
  assert (Hp : 256 ^ Z.of_nat (emLen - 1) = 2 ^ (8 * Z.of_nat (emLen - 1))).
  { change 256 with (2 ^ 8). rewrite <- Z.pow_mul_r by lia. reflexivity. }
  rewrite Hp in *.
  replace emBits with ((8 - z) + 8 * Z.of_nat (emLen - 1)) by lia.
  rewrite Z.pow_add_r by lia.
  pose proof (Z.pow_pos_nonneg 2 (8 * Z.of_nat (emLen - 1)) ltac:(lia) ltac:(lia)).
  nia.
Qed.

(** ** RSASSA-PSS *)

Lemma key_size_spec (k : RSA.numbers) :
  2 <= RSA.key_size k ->
  2 ^ (RSA.key_size k - 1) <= RSA.modulus k < 2 ^ RSA.key_size k.
Proof.
  unfold RSA.key_size. intros H.
  assert (Hpos : 0 < RSA.modulus k).
  { destruct (Z.lt_ge_cases 0 (RSA.modulus k)) as [Hlt|Hge]; [exact Hlt|].
    rewrite Z.log2_nonpos in H by lia. lia. }
  pose proof (Z.log2_spec _ Hpos) as Hs.
  replace (Z.log2 (RSA.modulus k) + 1 - 1) with (Z.log2 (RSA.modulus k)) by lia.
  replace (Z.log2 (RSA.modulus k) + 1) with (Z.succ (Z.log2 (RSA.modulus k))) by lia.
  exact Hs.
Qed.

Lemma pow256_pow2 (n : nat) : 256 ^ Z.of_nat n = 2 ^ (8 * Z.of_nat n).
Proof. change 256 with (2 ^ 8). rewrite <- Z.pow_mul_r by lia. reflexivity. Qed.

Lemma key_bytes_spec (k : RSA.numbers) :
  2 <= RSA.key_size k ->
  RSA.modulus k < 256 ^ Z.of_nat (RSA.key_bytes k).
Proof.
  intros H. destruct (key_size_spec k H) as [_ Hlt].
  eapply Z.lt_le_trans; [exact Hlt|].
  rewrite pow256_pow2. apply Z.pow_le_mono_r; [lia|].
  unfold RSA.key_bytes. rewrite Z2Nat.id.
  - pose proof (Z.div_mod (RSA.key_size k + 7) 8 ltac:(lia)).
    pose proof (Z.mod_pos_bound (RSA.key_size k + 7) 8 ltac:(lia)). lia.
  - apply Z.div_pos; lia.
Qed.

Lemma emLen_cover (emBits : Z) :
  1 <= emBits -> 2 ^ emBits <= 256 ^ Z.of_nat (RSA.emLen_of emBits).
Proof.
  intros H. rewrite pow256_pow2. apply Z.pow_le_mono_r; [lia|].
  destruct (emLen_of_spec emBits H). lia.
Qed.

Lemma Zpow_mod_bound (a x n : Z) : 0 < n -> 0 <= Zpow_mod a x n < n.
Proof.
  intros Hn. rewrite Zpow_mod_correct by lia. apply Z.mod_pos_bound. exact Hn.
Qed.

(** Signing succeeds, and verifying the signature against any message
    compares the two hashes H. *)
Lemma pss_verify_sign (k : RSA.numbers) (M M' salt : bytes) :
  2 <= RSA.key_size k ->
  is_key_pair k ->
  Forall is_byte salt ->
  (RSA.hLen + List.length salt + 2 <= RSA.emLen_of (RSA.key_size k - 1))%nat ->
  exists S : bytes,
    RSA.pss_sign k M salt = Some S /\
    forall sLen : option nat,
      sLen = None \/ sLen = Some (List.length salt) ->
      RSA.pss_verify k M' S sLen
      = RSA.bytes_eqb (RSA.pss_hash M salt) (RSA.pss_hash M' salt).
Proof.
  intros Hsize Hkey Hsalt Hlen.
  destruct (key_size_spec k Hsize) as [Hlo Hhi].
  pose proof (key_bytes_spec k Hsize) as Hkb.
  assert (Hn : 0 < RSA.modulus k).
  { pose proof (Z.pow_pos_nonneg 2 (RSA.key_size k - 1) ltac:(lia) ltac:(lia)). lia. }
  assert (Hbits : 1 <= RSA.key_size k - 1) by lia.
  destruct (RSA.emsa_pss_encode M (RSA.key_size k - 1) salt) as [EM|] eqn:Henc.
  2:{ unfold RSA.emsa_pss_encode in Henc. cbv zeta in Henc.
      destruct (Nat.ltb_spec (RSA.emLen_of (RSA.key_size k - 1))
                  (RSA.hLen + List.length salt + 2)); [lia | discriminate]. }
  pose proof (emsa_pss_encode_bound _ _ _ _ Hbits Hsalt Henc) as Hm.
  pose proof (emsa_pss_encode_length _ _ _ _ Henc) as HEMlen.
  pose proof (emsa_pss_encode_is_byte _ _ _ _ Hsalt Henc) as HEMb.
  pose proof (fun sLen H => emsa_pss_verify_encode M M' salt EM _ sLen Hbits H Henc)
    as Hver.
  set (m := RSA.OS2IP EM) in *.
  set (s := Zpow_mod m (RSA.private_exponent k) (RSA.modulus k)).
  pose proof (Zpow_mod_bound m (RSA.private_exponent k) _ Hn) as Hs. fold s in Hs.
  exists (SHA256.be_bytes (RSA.key_bytes k) s). split.
  - unfold RSA.pss_sign. rewrite Henc. fold m.
    unfold RSA.RSASP1.
    replace ((0 <=? m) && (m <? RSA.modulus k)) with true
      by (symmetry; apply andb_true_iff; split; [apply Z.leb_le | apply Z.ltb_lt]; lia).
    fold s. unfold RSA.I2OSP.
    replace ((0 <=? s) && (s <? 256 ^ Z.of_nat (RSA.key_bytes k))) with true
      by (symmetry; apply andb_true_iff; split; [apply Z.leb_le | apply Z.ltb_lt]; lia).
    reflexivity.
  - intros sLen HsLen. unfold RSA.pss_verify.
    rewrite be_bytes_length, Nat.ltb_irrefl.
    unfold RSA.OS2IP at 1. rewrite be_value_bytes by lia.
    unfold RSA.RSAVP1.
    replace ((0 <=? s) && (s <? RSA.modulus k)) with true
      by (symmetry; apply andb_true_iff; split; [apply Z.leb_le | apply Z.ltb_lt]; lia).
    unfold s. rewrite (Hkey m) by lia.
    unfold RSA.I2OSP.
    pose proof (emLen_cover _ Hbits) as Hcov.
    replace ((0 <=? m) && (m <? 256 ^ Z.of_nat (RSA.emLen_of (RSA.key_size k - 1))))
      with true
      by (symmetry; apply andb_true_iff; split; [apply Z.leb_le | apply Z.ltb_lt]; lia).
    rewrite <- HEMlen. unfold m, RSA.OS2IP. rewrite be_bytes_value by exact HEMb.
    exact (Hver sLen HsLen).
Qed.

(** With [MAX_LENGTH] the salt fills the encoded message. *)
Lemma max_salt_length (k : RSA.numbers) :
  266 <= RSA.key_size k ->
  0 <= RSA.salt_length_of k PSS_MAX_LENGTH /\
  (RSA.hLen + Z.to_nat (RSA.salt_length_of k PSS_MAX_LENGTH) + 2
   = RSA.emLen_of (RSA.key_size k - 1))%nat.
Proof.
  intros H. unfold RSA.salt_length_of, RSA.emLen_of, RSA.hLen.
  replace (RSA.key_size k - 1 + 7) with (RSA.key_size k + 6) by lia.
  pose proof (Z.div_mod (RSA.key_size k + 6) 8 ltac:(lia)).
  pose proof (Z.mod_pos_bound (RSA.key_size k + 6) 8 ltac:(lia)).
  split; [cbn; lia|].
  cbn [Z.of_nat Pos.of_succ_nat Pos.succ]. lia.
Qed.

(** ** sign_message and verify_signature on RSA keys *)

(** Signing with an RSA key pair returns a signature, and verifying it
    against any message returns whether the two hashes H agree. *)
Lemma verify_signature_sign_message (k : RSA.numbers) (M M' : string)
    (urandom : random_source) :
  266 <= RSA.key_size k ->
  is_key_pair k ->
  urandom_ok urandom ->
  exists signature : bytes,
    sign_message (RSA.rsa_private_key k) M urandom = Return signature /\
    verify_signature (public_key (RSA.rsa_private_key k)) M' signature
    = Return (RSA.bytes_eqb (RSA.pss_hash (encode M) (max_salt k urandom))
                            (RSA.pss_hash (encode M') (max_salt k urandom))).
Proof.
  intros Hsize Hkey Hrand.
  destruct (max_salt_length k Hsize) as [Hs0 Hslen].
  destruct (Hrand (Z.to_nat (RSA.salt_length_of k PSS_MAX_LENGTH))) as [Hl Hb].
  fold (max_salt k urandom) in Hl, Hb.
  destruct (pss_verify_sign k (encode M) (encode M') (max_salt k urandom))
    as (S & Hsign & Hver); [lia | exact Hkey | exact Hb | rewrite Hl; lia |].
  exists S. split.
  - unfold sign_message. cbn [sign RSA.rsa_private_key RSA.rsa_sign].
    destruct (Z.ltb_spec (RSA.salt_length_of k PSS_MAX_LENGTH) 0); [lia|].
    fold (max_salt k urandom). rewrite Hsign. reflexivity.
  - unfold verify_signature.
    cbn [public_key verify RSA.rsa_private_key RSA.rsa_public_key RSA.rsa_verify
         RSA.verify_salt_length].
    destruct (Z.ltb_spec (RSA.salt_length_of k PSS_MAX_LENGTH) 0); [lia|].
    rewrite (Hver None) by (left; reflexivity).
    destruct (RSA.bytes_eqb _ _); reflexivity.
Qed.

(** The RSA backend raises instances of [Exception] only. *)
Lemma rsa_verify_raises_Exception (k : RSA.numbers) (signature data : bytes)
    (padding : padding_t) (algorithm : hash_algorithm) (e : exn) :
  RSA.rsa_verify k signature data padding algorithm = Raise e ->
  is_Exception e = true.
Proof.
  unfold RSA.rsa_verify.
  destruct padding as [[[]] sl], algorithm.
  destruct (RSA.salt_length_of k sl <? 0).
  - intros H. injection H as <-. reflexivity.
  - destruct (RSA.pss_verify _ _ _ _); intros H; [discriminate|].
    injection H as <-. reflexivity.
Qed.

(** ** The multi-prime key is an RSA key pair *)

Lemma list_lcm_divide (ps : list Z) (x : Z) :
  (forall p, In p ps -> (p | x)) -> (list_lcm ps | x).
Proof.
  induction ps as [|p ps IH]; intros H; cbn [list_lcm fold_right].
  - apply Z.divide_1_l.
  - apply Z.lcm_least.
    + apply H. now left.
    + apply IH. intros q Hq. apply H. now right.
Qed.

Lemma fixes_residues_divide (ps : list Z) (x m : Z) :
  0 <= x ->
  (forall p, In p ps -> 0 < p) ->
  fixes_residues ps x = true ->
  (list_lcm ps | m ^ x - m).
Proof.
  intros Hx Hpos Hfix. apply list_lcm_divide. intros p Hp.
  unfold fixes_residues in Hfix. rewrite forallb_forall in Hfix.
  specialize (Hfix p Hp). rewrite forallb_forall in Hfix.
  specialize (Hpos p Hp).
  pose proof (Z.mod_pos_bound m p Hpos) as Hr.
  specialize (Hfix (Z.to_nat (m mod p))).
  rewrite Z2Nat.id in Hfix by lia.
  assert (Hin : In (Z.to_nat (m mod p)) (seq 0 (Z.to_nat p))) by (apply in_seq; lia).
  apply Hfix in Hin. apply Z.eqb_eq in Hin.
  rewrite Zpow_mod_correct in Hin by lia.
  rewrite <- Zpower_mod in Hin by lia.
  apply Z.mod_divide; [lia|].
  rewrite Zminus_mod, Hin, Z.sub_diag. apply Z.mod_0_l. lia.
Qed.

Lemma is_key_pair_of_residues (ps : list Z) (k : RSA.numbers) :
  0 <= RSA.private_exponent k ->
  0 <= RSA.public_exponent k ->
  (forall p, In p ps -> 0 < p) ->
  list_lcm ps = RSA.modulus k ->
  fixes_residues ps (RSA.private_exponent k * RSA.public_exponent k) = true ->
  is_key_pair k.
Proof.
  intros Hd He Hpos Hlcm Hfix m Hm.
  set (n := RSA.modulus k) in *.
  assert (Hn : 0 < n) by lia.
  rewrite !Zpow_mod_correct by lia.
  rewrite <- Zpower_mod by lia.
  rewrite <- Z.pow_mul_r by lia.
  pose proof (fixes_residues_divide ps _ m (Z.mul_nonneg_nonneg _ _ Hd He) Hpos Hfix)
    as Hdiv.
  rewrite Hlcm in Hdiv. fold n in Hdiv. destruct Hdiv as [c Hc].
  replace (m ^ (RSA.private_exponent k * RSA.public_exponent k)) with (m + c * n)
    by (rewrite <- Hc; ring).
  rewrite Z.mod_add by lia. apply Z.mod_small. exact Hm.
Qed.

Lemma small_primes_key_pair : is_key_pair small_primes_key.
Proof.
  apply (is_key_pair_of_residues small_primes).
  - cbn. lia.
  - cbn. lia.
  - intros p Hp.
    assert (H : forallb (fun q => 0 <? q) small_primes = true) by (vm_compute; reflexivity).
    rewrite forallb_forall in H. apply Z.ltb_lt. apply H. exact Hp.
  - vm_compute. reflexivity.
  - vm_compute. reflexivity.
Qed.

Lemma small_primes_key_size : RSA.key_size small_primes_key = 303.
Proof. vm_compute. reflexivity. Qed.

Lemma constant_source_ok (b : Z) : is_byte b -> urandom_ok (constant_source b).
Proof.
  intros Hb n. unfold constant_source. split; [apply repeat_length|].
  apply Forall_forall. intros x Hx. apply repeat_spec in Hx. now subst.
Qed.

(** ** The model against OpenSSL *)

Example openssl_signature_accepted :
  verify_signature (RSA.rsa_public_key openssl_key) "China-MY25" openssl_signature
  = Return true.
Proof. vm_compute. reflexivity. Qed.

Example openssl_signature_other_message :
  verify_signature (RSA.rsa_public_key openssl_key) "China-MY26" openssl_signature
  = Return false.
Proof. vm_compute. reflexivity. Qed.

(** A signature without its leading zero byte is accepted, as OpenSSL
    accepts it; one longer than the modulus is not. *)
Example openssl_short_signature_accepted :
  List.length openssl_short_signature = 63%nat /\
  verify_signature (RSA.rsa_public_key openssl_key) "China-MY25"
    openssl_short_signature = Return true /\
  verify_signature (RSA.rsa_public_key openssl_key) "China-MY25"
    (0 :: 0 :: openssl_short_signature) = Return false.
Proof. split; [reflexivity|]. split; vm_compute; reflexivity. Qed.

(** Verifying with [MAX_LENGTH] accepts the signature made with a salt of 10
    bytes; verifying with a given salt length accepts that length only. *)
Example openssl_short_salt_accepted :
  verify_signature (RSA.rsa_public_key openssl_key) "China-MY25"
    openssl_short_salt_signature = Return true /\
  RSA.rsa_verify openssl_key openssl_short_salt_signature (encode "China-MY25")
    (padding_PSS (padding_MGF1 hashes_SHA256) (PSS_salt 30)) hashes_SHA256
  = Raise InvalidSignature /\
  RSA.rsa_verify openssl_key openssl_short_salt_signature (encode "China-MY25")
    (padding_PSS (padding_MGF1 hashes_SHA256) (PSS_salt 10)) hashes_SHA256
  = Return tt.
Proof. split; [|split]; vm_compute; reflexivity. Qed.

(** The signature OpenSSL made with a 2048-bit key, the size
    [generate_rsa_keypair] asks for. *)
Example openssl_2048_signature_accepted :
  RSA.key_size openssl_2048_key = 2048 /\
  verify_signature (RSA.rsa_public_key openssl_2048_key) "China-MY25"
    openssl_2048_signature = Return true /\
  verify_signature (RSA.rsa_public_key openssl_2048_key) "China-MY25tampered"
    openssl_2048_signature = Return false.
Proof. split; [|split]; vm_compute; reflexivity. Qed.

(** ** The claims on signatures *)

Lemma bytes_eqb_neq (a b : bytes) : a <> b -> RSA.bytes_eqb a b = false.
Proof.
  intros H. destruct (RSA.bytes_eqb a b) eqn:E; [|reflexivity].
  apply bytes_eqb_eq in E. contradiction.
Qed.

Lemma bytes_eqb_refl (a : bytes) : RSA.bytes_eqb a a = true.
Proof. now apply bytes_eqb_eq. Qed.


(** On the RSA keys of the model [verify_signature] returns a boolean for
    every key, message and signature. *)
Lemma verify_signature_rsa_total (k : RSA.numbers) (message : string)
    (signature : bytes) :
  exists b : bool,
    verify_signature (RSA.rsa_public_key k) message signature = Return b.
Proof.
  unfold verify_signature, try_except_Exception.
  destruct (verify (RSA.rsa_public_key k) signature (encode message) _ _)
    as [[]|e] eqn:E.
  - exists true. reflexivity.
  - cbn [verify RSA.rsa_public_key] in E.
    apply rsa_verify_raises_Exception in E. rewrite E. exists false. reflexivity.
Qed.


(** ** Signing and verifying a [str] *)

Lemma Py_sign_message_text (private_key : PrivateKey) (message : Py.str)
    (data : bytes) (urandom : random_source) :
  Py.encode message = Return data ->
  Py.sign_message private_key message urandom
  = sign_message private_key (text_of_bytes data) urandom.
Proof.
  intros H. unfold Py.sign_message, sign_message.
  rewrite H, (encode_text_of_bytes data (Py_encode_is_byte message data H)).
  reflexivity.
Qed.

Lemma Py_verify_signature_text (public_key : PublicKey) (message : Py.str)
    (data signature : bytes) :
  Py.encode message = Return data ->
  Py.verify_signature public_key message signature
  = verify_signature public_key (text_of_bytes data) signature.
Proof.
  intros H. unfold Py.verify_signature, verify_signature.
  rewrite H, (encode_text_of_bytes data (Py_encode_is_byte message data H)).
  reflexivity.
Qed.

(** A message that UTF-8 cannot encode: [sign_message] raises, and
    [verify_signature], which encodes inside its [try], returns [False]. *)
Lemma Py_sign_message_unencodable (private_key : PrivateKey) (message : Py.str)
    (e : exn) (urandom : random_source) :
  Py.encode message = Raise e ->
  Py.sign_message private_key message urandom = Raise UnicodeEncodeError.
Proof.
  intros H. unfold Py.sign_message. rewrite H.
  now rewrite (Py_encode_raises message e H).
Qed.


(** Signing an encodable message with an RSA key pair returns a signature,
    and verifying it against another encodable message returns whether the
    two hashes H agree. *)
Lemma Py_verify_signature_sign_message (k : RSA.numbers) (M M' : Py.str)
    (data data' : bytes) (urandom : random_source) :
  266 <= RSA.key_size k ->
  is_key_pair k ->
  urandom_ok urandom ->
  Py.encode M = Return data ->
  Py.encode M' = Return data' ->
  exists signature : bytes,
    Py.sign_message (RSA.rsa_private_key k) M urandom = Return signature /\
    Py.verify_signature (public_key (RSA.rsa_private_key k)) M' signature
    = Return (RSA.bytes_eqb (RSA.pss_hash data (max_salt k urandom))
                            (RSA.pss_hash data' (max_salt k urandom))).
Proof.
  intros Hsize Hkey Hrand HM HM'.
  destruct (verify_signature_sign_message k (text_of_bytes data) (text_of_bytes data')
              urandom Hsize Hkey Hrand) as (signature & Hsign & Hver).
  rewrite (encode_text_of_bytes data (Py_encode_is_byte M data HM)) in Hver.
  rewrite (encode_text_of_bytes data' (Py_encode_is_byte M' data' HM')) in Hver.
  exists signature. split.
  - rewrite (Py_sign_message_text _ M data urandom HM). exact Hsign.
  - rewrite (Py_verify_signature_text _ M' data' signature HM'). exact Hver.
Qed.

(** ** The claims on signatures, on Python values *)

(** C5 (as the code has it): a signature made by [sign_message] with the
    private key of an RSA key pair, of a message that UTF-8 can encode,
    verifies under the public key against the same message, whatever salt
    the random source gave. *)
Theorem sign_verify_round_trip (k : RSA.numbers) (message : Py.str)
    (data : bytes) (urandom : random_source) :
  266 <= RSA.key_size k ->
  is_key_pair k ->
  urandom_ok urandom ->
  Py.encode message = Return data ->
  exists signature : bytes,
    Py.sign_message (RSA.rsa_private_key k) message urandom = Return signature /\
    Py.verify_signature (public_key (RSA.rsa_private_key k)) message signature
    = Return true.
Proof.
  intros Hsize Hkey Hrand Hm.
  destruct (Py_verify_signature_sign_message k message message data data urandom
              Hsize Hkey Hrand Hm Hm) as (signature & Hsign & Hver).
  exists signature. split; [exact Hsign|].
  rewrite Hver, bytes_eqb_refl. reflexivity.
Qed.

Lemma sign_verify_round_trip_witness :
  266 <= RSA.key_size small_primes_key /\
  is_key_pair small_primes_key /\
  urandom_ok (constant_source 7) /\
  Py.encode (Py.of_text "China-MY25") = Return (encode "China-MY25") /\
  exists signature : bytes,
    Py.sign_message (RSA.rsa_private_key small_primes_key) (Py.of_text "China-MY25")
      (constant_source 7)
    = Return signature /\
    Py.verify_signature (public_key (RSA.rsa_private_key small_primes_key))
      (Py.of_text "China-MY25") signature
    = Return true.
Proof.
  assert (H1 : 266 <= RSA.key_size small_primes_key)
    by (rewrite small_primes_key_size; lia).
  assert (H2 : urandom_ok (constant_source 7))
    by (apply constant_source_ok; unfold is_byte; lia).
  assert (H3 : Py.encode (Py.of_text "China-MY25") = Return (encode "China-MY25"))
    by reflexivity.
  split; [exact H1|]. split; [exact small_primes_key_pair|].
  split; [exact H2|]. split; [exact H3|].
  exact (sign_verify_round_trip small_primes_key (Py.of_text "China-MY25")
           (encode "China-MY25") (constant_source 7)
           H1 small_primes_key_pair H2 H3).
Defined.

(** C5, as stated, fails for the message ['\ud800']: [sign_message] raises
    [UnicodeEncodeError] when it encodes the message, and returns no
    signature. *)
Lemma sign_message_surrogate_raises :
  Py.sign_message (RSA.rsa_private_key small_primes_key) [55296] (constant_source 7)
  = Raise UnicodeEncodeError /\
  ~ exists signature : bytes,
      Py.sign_message (RSA.rsa_private_key small_primes_key) [55296]
        (constant_source 7)
      = Return signature /\
      Py.verify_signature (public_key (RSA.rsa_private_key small_primes_key))
        [55296] signature
      = Return true.
Proof.
  assert (H : Py.sign_message (RSA.rsa_private_key small_primes_key) [55296]
                (constant_source 7) = Raise UnicodeEncodeError) by reflexivity.
  split; [exact H|].
  intros (signature & Hsign & _). rewrite H in Hsign. discriminate Hsign.
Qed.

(** Two salts give two signatures of one message, and both verify. *)
Example two_salts_two_signatures :
  exists s1 s2 : bytes,
    sign_message (RSA.rsa_private_key small_primes_key) "China-MY25" (constant_source 7)
    = Return s1 /\
    sign_message (RSA.rsa_private_key small_primes_key) "China-MY25" (constant_source 8)
    = Return s2 /\
    s1 <> s2 /\
    verify_signature (RSA.rsa_public_key small_primes_key) "China-MY25" s1 = Return true /\
    verify_signature (RSA.rsa_public_key small_primes_key) "China-MY25" s2 = Return true.
Proof.
  do 2 eexists. split; [vm_compute; reflexivity|]. split; [vm_compute; reflexivity|].
  split; [intros H; discriminate H|].
  split; vm_compute; reflexivity.
Qed.




(** A signature verifies against every message with the digest of the one
    signed. *)
Lemma same_digest_accepted (k : RSA.numbers) (M M' : Py.str)
    (data data' : bytes) (urandom : random_source) :
  266 <= RSA.key_size k ->
  is_key_pair k ->
  urandom_ok urandom ->
  Py.encode M = Return data ->
  Py.encode M' = Return data' ->
  SHA256.digest data' = SHA256.digest data ->
  exists signature : bytes,
    Py.sign_message (RSA.rsa_private_key k) M urandom = Return signature /\
    Py.verify_signature (public_key (RSA.rsa_private_key k)) M' signature
    = Return true.
Proof.
  intros Hsize Hkey Hrand HM HM' Heq.
  destruct (Py_verify_signature_sign_message k M M' data data' urandom
              Hsize Hkey Hrand HM HM') as (signature & Hsign & Hver).
  exists signature. split; [exact Hsign|].
  rewrite Hver. unfold RSA.pss_hash. rewrite Heq, bytes_eqb_refl. reflexivity.
Qed.

(** ** SHA-256 collides on short messages *)

Lemma all_words_complete (alphabet : list Z) (n : nat) (bs : list Z) :
  Forall (fun b => In b alphabet) bs -> List.length bs = n ->
  In bs (all_words alphabet n).
Proof.
  revert bs. induction n as [|n IH]; intros bs Hb Hlen.
  - destruct bs; [now left | discriminate].
  - destruct bs as [|b bs]; [discriminate|].
    inversion Hb as [|? ? Hb0 Hb']; subst.
    cbn [all_words]. apply in_flat_map. exists b. split; [exact Hb0|].
    apply in_map. apply IH; [exact Hb' | now injection Hlen].
Qed.

Lemma all_words_length (alphabet : list Z) (n : nat) :
  Z.of_nat (List.length (all_words alphabet n))
  = Z.of_nat (List.length alphabet) ^ Z.of_nat n.
Proof.
  induction n as [|n IH]; [reflexivity|].
  cbn [all_words].
  rewrite (flat_map_constant_length (c := List.length (all_words alphabet n)))
    by (intros x _; apply length_map).
  rewrite Nat2Z.inj_mul, IH, Nat2Z.inj_succ, Z.pow_succ_r by lia. reflexivity.
Qed.

Lemma NoDup_prepend (l : list Z) (ws : list (list Z)) :
  NoDup l -> NoDup ws -> NoDup (flat_map (fun b => List.map (cons b) ws) l).
Proof.
  intros Hl Hws. induction Hl as [|a l Ha Hl IH]; cbn [flat_map].
  - constructor.
  - apply NoDup_app.
    + apply Injective_map_NoDup; [|exact Hws].
      intros x y Hxy. now injection Hxy.
    + exact IH.
    + intros w Hw Hw'. apply in_map_iff in Hw. destruct Hw as (x & <- & _).
      apply in_flat_map in Hw'. destruct Hw' as (b & Hb & Hw').
      apply in_map_iff in Hw'. destruct Hw' as (y & Hy & _).
      injection Hy as -> _. contradiction.
Qed.

Lemma all_words_NoDup (alphabet : list Z) (n : nat) :
  NoDup alphabet -> NoDup (all_words alphabet n).
Proof.
  intros Ha. induction n as [|n IH]; cbn [all_words].
  - constructor; [intros [] | constructor].
  - apply NoDup_prepend; assumption.
Qed.

Lemma all_words_in (alphabet : list Z) (n : nat) (bs : list Z) :
  In bs (all_words alphabet n) -> Forall (fun b => In b alphabet) bs.
Proof.
  revert bs. induction n as [|n IH]; intros bs H; cbn [all_words] in H.
  - destruct H as [<-|[]]. constructor.
  - apply in_flat_map in H. destruct H as (b & Hb & H).
    apply in_map_iff in H. destruct H as (w & <- & Hw).
    constructor; [exact Hb | apply IH; exact Hw].
Qed.

Lemma all_bytes_complete (n : nat) (bs : bytes) :
  Forall is_byte bs -> List.length bs = n -> In bs (all_bytes n).
Proof.
  intros Hb Hlen. apply all_words_complete; [|exact Hlen].
  apply Forall_forall. intros b Hin. rewrite Forall_forall in Hb.
  specialize (Hb b Hin). unfold is_byte in Hb.
  apply in_map_iff. exists (Z.to_nat b). split; [lia | apply in_seq; lia].
Qed.

(** A [str] of ASCII characters encodes to its code points. *)
Lemma ascii_strs_encode (n : nat) (s : Py.str) :
  In s (ascii_strs n) -> Py.encode s = Return s.
Proof.
  intros H. apply all_words_in in H.
  induction H as [|c s Hc _ IH]; [reflexivity|].
  apply in_map_iff in Hc. destruct Hc as (i & <- & Hi). apply in_seq in Hi.
  cbn [Py.encode]. unfold Py.utf8, Py.is_surrogate.
  destruct (Z.ltb_spec (Z.of_nat i) 0); [lia|].
  destruct (Z.ltb_spec 1114111 (Z.of_nat i)); [lia|].
  destruct (Z.leb_spec 55296 (Z.of_nat i)); [lia|].
  cbn [orb andb].
  destruct (Z.ltb_spec (Z.of_nat i) 128); [|lia].
  rewrite IH. reflexivity.
Qed.

Lemma ascii_strs_length (n : nat) :
  Z.of_nat (List.length (ascii_strs n)) = 128 ^ Z.of_nat n.
Proof.
  unfold ascii_strs. rewrite all_words_length, length_map, length_seq. reflexivity.
Qed.

Lemma all_bytes_length (n : nat) :
  Z.of_nat (List.length (all_bytes n)) = 256 ^ Z.of_nat n.
Proof.
  unfold all_bytes. rewrite all_words_length, length_map, length_seq. reflexivity.
Qed.

Lemma ascii_strs_NoDup (n : nat) : NoDup (ascii_strs n).
Proof.
  apply all_words_NoDup. apply Injective_map_NoDup; [|apply seq_NoDup].
  intros i j. apply Nat2Z.inj.
Qed.

(** A function from the [str] values of 37 ASCII characters into the byte
    strings of length 32 takes some value twice. *)
Lemma no_injection_into_digests (f : Py.str -> bytes) :
  (forall s, In (f s) (all_bytes 32)) ->
  (forall s t, In s (ascii_strs 37) -> In t (ascii_strs 37) -> f s = f t -> s = t) ->
  False.
Proof.
  intros Hin Hinj.
  generalize (ascii_strs_length 37) (all_bytes_length 32) (ascii_strs_NoDup 37).
  revert Hinj. generalize (ascii_strs 37) (all_bytes 32) Hin.
  intros l univ Hu Hinj Hl1 Hl2 Hnd.
  assert (Hfl : NoDup (List.map f l)).
  { apply Injective_map_NoDup_in; [exact Hinj | exact Hnd]. }
  assert (Hincl : incl (List.map f l) univ).
  { intros y Hy. apply in_map_iff in Hy. destruct Hy as (s & <- & _). apply Hu. }
  pose proof (NoDup_incl_length Hfl Hincl) as Hle.
  rewrite length_map in Hle. apply Nat2Z.inj_le in Hle.
  rewrite Hl1, Hl2 in Hle. vm_compute in Hle. apply Hle. reflexivity.
Qed.

(** There are more [str] values of 37 ASCII characters than SHA-256
    digests: two of them have the same digest. *)
Lemma sha256_collides_on_ascii_strs :
  ~ forall s t : Py.str,
      In s (ascii_strs 37) -> In t (ascii_strs 37) ->
      SHA256.digest s = SHA256.digest t -> s = t.
Proof.
  intros Hinj. apply (no_injection_into_digests SHA256.digest); [|exact Hinj].
  intros s. apply all_bytes_complete; [apply digest_is_byte | apply digest_length].
Qed.

(** So, for no RSA key pair does verification reject every altered message,
    even among the messages of 37 ASCII characters. *)
Lemma tamper_rejection_not_universal (k : RSA.numbers) (urandom : random_source) :
  266 <= RSA.key_size k ->
  is_key_pair k ->
  urandom_ok urandom ->
  ~ forall (M M' : Py.str) (signature : bytes),
      In M (ascii_strs 37) -> In M' (ascii_strs 37) -> M <> M' ->
      Py.sign_message (RSA.rsa_private_key k) M urandom = Return signature ->
      Py.verify_signature (public_key (RSA.rsa_private_key k)) M' signature
      = Return false.
Proof.
  intros Hsize Hkey Hrand Hclaim.
  apply sha256_collides_on_ascii_strs. intros s t Hs Ht Hst.
  destruct (list_eq_dec Z.eq_dec s t) as [Heq|Hneq]; [exact Heq|]. exfalso.
  destruct (same_digest_accepted k s t s t urandom Hsize Hkey Hrand
              (ascii_strs_encode 37 s Hs) (ascii_strs_encode 37 t Ht)
              (eq_sym Hst)) as (signature & Hsign & Hver).
  rewrite (Hclaim s t signature Hs Ht Hneq Hsign) in Hver. discriminate Hver.
Qed.

(** ** Further properties of the search *)

Lemma startswith_fewer_zeros (s : string) (n1 n2 : nat) :
  (n1 <= n2)%nat ->
  startswith s (str_repeat "0" n2) = true ->
  startswith s (str_repeat "0" n1) = true.
Proof.
  unfold startswith. revert s n2.
  induction n1 as [|n1 IH]; intros s n2 Hle H.
  - destruct s; reflexivity.
  - destruct n2 as [|n2]; [lia|].
    cbn [str_repeat String.append] in *.
    destruct s as [|c s]; cbn [String.prefix] in *; [discriminate|].
    destruct (ascii_dec "0" c); [|discriminate].
    apply (IH s n2); [lia | exact H].
Qed.

Lemma meets_easier (seed : string) (d1 d2 : Z) (c : N) :
  d1 <= d2 -> meets seed d2 c = true -> meets seed d1 c = true.
Proof.
  unfold meets, str_mul. intros Hle.
  apply startswith_fewer_zeros. lia.
Qed.

(** On encoded text a lower difficulty is met no later. *)
Lemma pow_mining_monotone_text (seed : string) (d1 d2 : Z)
    (w1 w2 : World) (r2 : mining_result) :
  d1 <= d2 ->
  pow_mining_returns seed d2 w2 r2 ->
  exists r1 : mining_result,
    pow_mining_returns seed d1 w1 r1 /\ (res_nonce r1 <= res_nonce r2)%N.
Proof.
  intros Hle (fuel2 & w2' & E2). apply pow_mining_sound in E2.
  destruct E2 as (k2 & _ & _ & _ & _ & Hm2 & _).
  apply (meets_easier seed d1 d2 _ Hle) in Hm2.
  destruct (pow_mining_complete seed d1 _ Hm2 (S (N.to_nat (res_nonce r2))) w1)
    as (r1 & w1' & E1); [lia|].
  exists r1. split; [exists (S (N.to_nat (res_nonce r2))), w1'; exact E1|].
  apply pow_mining_sound in E1.
  destruct E1 as (k1 & _ & _ & _ & _ & _ & Hmin1 & _).
  destruct (N.le_gt_cases (res_nonce r1) (res_nonce r2)) as [H|H]; [exact H|].
  specialize (Hmin1 _ H). congruence.
Qed.

(** X1: a lower difficulty is met no later: when the search returns at
    difficulty [d2], it returns at every [d1] from -2^63 to [d2], whatever
    the clock, with a counter that is not larger. *)
Theorem pow_mining_difficulty_monotone (memory : N) (seed : Py.str) (d1 d2 : Z)
    (w1 w2 : World) (r2 : Py.mining_result) :
  - 2 ^ 63 <= d1 <= d2 ->
  Py.pow_mining_returns memory seed d2 w2 r2 ->
  exists r1 : Py.mining_result,
    Py.pow_mining_returns memory seed d1 w1 r1 /\
    (Py.res_nonce r1 <= Py.res_nonce r2)%N.
Proof.
  intros Hd (fuel2 & w2' & E2). apply Py_pow_mining_inv in E2.
  destruct E2 as (data & r0 & Hseed & Hd2 & Hm2 & E2 & ->).
  destruct (pow_mining_monotone_text (text_of_bytes data) d1 d2 w1 w2 r0)
    as (r1 & (fuel1 & w1' & E1) & Hle); [lia | exists fuel2, w2'; exact E2 |].
  exists (Py.of_text_result seed r1). split; [|exact Hle].
  exists fuel1, w1'.
  rewrite (Py_pow_mining_text fuel1 memory seed data d1 w1 Hseed) by lia.
  rewrite E1. reflexivity.
Qed.

Lemma pow_mining_difficulty_monotone_witness :
  let r2 := (25%N, Py.of_text "China-MY25",
             "0edc234120191c3e18c8d4a9390b634611251455c38214092be9c979b0a1eccc",
             1) in
  - 2 ^ 63 <= - 2 ^ 63 <= 1 /\
  Py.pow_mining_returns 1024 (Py.of_text "China-MY") 1 steady_world r2 /\
  exists r1 : Py.mining_result,
    Py.pow_mining_returns 1024 (Py.of_text "China-MY") (- 2 ^ 63) set_back_world r1 /\
    (Py.res_nonce r1 <= Py.res_nonce r2)%N.
Proof.
  intros r2.
  assert (H1 : - 2 ^ 63 <= - 2 ^ 63 <= 1) by lia.
  assert (H2 : Py.pow_mining_returns 1024 (Py.of_text "China-MY") 1 steady_world r2).
  { exists 26%nat. eexists. vm_compute. reflexivity. }
  split; [exact H1|]. split; [exact H2|].
  exact (pow_mining_difficulty_monotone 1024 (Py.of_text "China-MY") (- 2 ^ 63) 1
           set_back_world steady_world r2 H1 H2).
Defined.

(** X2: more than 64 zero characters are never found: neither search returns,
    whatever the seed. *)
Theorem search_diverges_above_64 (seed : string) (d : Z) :
  64 < d ->
  (forall (fuel : nat) (w : World), pow_mining fuel seed d w = None) /\
  (forall fuel : nat, find_pow_hash fuel seed d = None).
Proof.
  intros Hd. split.
  - apply pow_mining_diverges_above_64. exact Hd.
  - intros fuel.
    unfold find_pow_hash.
    rewrite (find_pow_hash_loop_eq fuel seed (str_mul "0" d) 0 0%N steady_world).
    pose proof (pow_mining_diverges_above_64 seed d Hd fuel
                  (mkWorld (fun _ => 0) 0 [])) as H.
    unfold pow_mining in H. cbn [time_time clock reads trace] in H.
    destruct (pow_mining_loop fuel seed (str_mul "0" d) 0 0%N steady_world)
      as [[r w']|] eqn:E; [|reflexivity].
    exfalso. apply pow_mining_loop_sound in E.
    destruct E as (k & _ & _ & _ & Hdig & Hs & _).
    rewrite Hdig in Hs. apply (meets_bound seed d) in Hs. lia.
Qed.

Lemma search_diverges_above_64_witness :
  64 < 65 /\
  (forall (fuel : nat) (w : World), pow_mining fuel "China-MY" 65 w = None) /\
  (forall fuel : nat, find_pow_hash fuel "China-MY" 65 = None).
Proof.
  assert (H : 64 < 65) by lia.
  split; [exact H|].
  exact (search_diverges_above_64 "China-MY" 65 H).
Defined.

(** The decimal text of a counter reads back as the counter. *)
Lemma parse_decimal_decimal (n : N) : parse_decimal (decimal n) = Some n.
Proof.
  unfold parse_decimal, decimal.
  destruct (N.to_uint n) as [| | | | | | | | | |] eqn:E;
    try (rewrite NilZero.usu by discriminate; cbn [option_map];
         rewrite <- E, DecimalN.Unsigned.of_to; reflexivity).
  rewrite NilZero.usu_nil. cbn [option_map].
  rewrite <- (DecimalN.Unsigned.of_to n), E. reflexivity.
Qed.

Lemma decimal_inj (n m : N) : decimal n = decimal m -> n = m.
Proof.
  intros H. apply (f_equal parse_decimal) in H.
  rewrite !parse_decimal_decimal in H. now injection H.
Qed.

Lemma append_inj_l (s a b : string) : (s ++ a = s ++ b)%string -> a = b.
Proof.
  induction s as [|c s IH]; cbn; intros H; [exact H|].
  injection H as H. apply IH. exact H.
Qed.

Lemma hashed_app (t1 t2 : list event) : hashed (t1 ++ t2) = hashed t1 ++ hashed t2.
Proof.
  induction t1 as [|[t|c] t1 IH]; cbn; [reflexivity | exact IH | now rewrite IH].
Qed.

Lemma clock_readings_app (t1 t2 : list event) :
  clock_readings (t1 ++ t2) = (clock_readings t1 + clock_readings t2)%nat.
Proof.
  induction t1 as [|[t|c] t1 IH]; cbn; [reflexivity | now rewrite IH | exact IH].
Qed.

Lemma hashed_attempts (seed : string) (n0 : N) (k : nat) :
  hashed (attempts seed n0 k)
  = List.map (fun i => (seed ++ decimal (n0 + N.of_nat i))%string) (seq 0 k).
Proof.
  unfold attempts. induction (seq 0 k) as [|i l IH]; cbn; [reflexivity | now rewrite IH].
Qed.

Lemma clock_readings_attempts (seed : string) (n0 : N) (k : nat) :
  clock_readings (attempts seed n0 k) = O.
Proof.
  unfold attempts. induction (seq 0 k) as [|i l IH]; cbn; [reflexivity | exact IH].
Qed.

(** X3: a run that returns counter [n] has computed [n + 1] hashes, of the seed
    followed by 0, 1, ..., [n] in this order and so of pairwise distinct
    inputs, and has read the clock twice. *)
Theorem pow_mining_work (fuel : nat) (seed : string) (d : Z) (w : World)
    (r : mining_result) (w' : World) :
  pow_mining fuel seed d w = Some (r, w') ->
  exists done : list event,
    trace w' = trace w ++ done /\
    hashed done
    = List.map (fun i => (seed ++ decimal (N.of_nat i))%string)
        (seq 0 (S (N.to_nat (res_nonce r)))) /\
    List.length (hashed done) = S (N.to_nat (res_nonce r)) /\
    NoDup (hashed done) /\
    clock_readings done = 2%nat.
Proof.
  intros E. apply pow_mining_sound in E.
  destruct E as (k & _ & Hn & _ & _ & _ & _ & _ & Hw).
  rewrite Hn, Nat2N.id.
  eexists. split; [rewrite Hw; reflexivity|].
  assert (Hh : hashed ([EvClock (clock w (reads w))] ++ attempts seed 0 (S k)
                         ++ [EvClock (clock w (S (reads w)))])
               = List.map (fun i => (seed ++ decimal (N.of_nat i))%string) (seq 0 (S k))).
  { rewrite !hashed_app, hashed_attempts. cbn [hashed]. rewrite app_nil_r.
    cbn [app]. apply map_ext. intros i. now rewrite N.add_0_l. }
  split; [exact Hh|]. rewrite Hh. split; [now rewrite length_map, length_seq|].
  split.
  - apply Injective_map_NoDup; [|apply seq_NoDup].
    intros i j Hij. apply append_inj_l, decimal_inj in Hij. lia.
  - rewrite !clock_readings_app, clock_readings_attempts. reflexivity.
Qed.

Lemma pow_mining_work_witness :
  exists r w',
    pow_mining 26 "China-MY" 1 steady_world = Some (r, w') /\
    exists done : list event,
      trace w' = trace steady_world ++ done /\
      hashed done
      = List.map (fun i => ("China-MY" ++ decimal (N.of_nat i))%string)
          (seq 0 (S (N.to_nat (res_nonce r)))) /\
      List.length (hashed done) = S (N.to_nat (res_nonce r)) /\
      NoDup (hashed done) /\
      clock_readings done = 2%nat.
Proof.
  assert (H : { rw | pow_mining 26 "China-MY" 1 steady_world = Some rw }).
  { eexists. vm_compute. reflexivity. }
  destruct H as [[r w'] E]. exists r, w'. split; [exact E|].
  exact (pow_mining_work 26 "China-MY" 1 steady_world r w' E).
Defined.

(** ** Further properties of signing and verifying *)

(** Signing needs no more than a large enough modulus: it returns as many
    bytes as the modulus has, whether or not the numbers are a key pair. *)
Lemma pss_sign_returns (k : RSA.numbers) (M salt : bytes) :
  2 <= RSA.key_size k ->
  Forall is_byte salt ->
  (RSA.hLen + List.length salt + 2 <= RSA.emLen_of (RSA.key_size k - 1))%nat ->
  exists S : bytes,
    RSA.pss_sign k M salt = Some S /\
    List.length S = RSA.key_bytes k /\
    Forall is_byte S /\
    0 <= RSA.OS2IP S < RSA.modulus k.
Proof.
  intros Hsize Hsalt Hlen.
  destruct (key_size_spec k Hsize) as [Hlo Hhi].
  pose proof (key_bytes_spec k Hsize) as Hkb.
  assert (Hn : 0 < RSA.modulus k).
  { pose proof (Z.pow_pos_nonneg 2 (RSA.key_size k - 1) ltac:(lia) ltac:(lia)). lia. }
  assert (Hbits : 1 <= RSA.key_size k - 1) by lia.
  destruct (RSA.emsa_pss_encode M (RSA.key_size k - 1) salt) as [EM|] eqn:Henc.
  2:{ unfold RSA.emsa_pss_encode in Henc. cbv zeta in Henc.
      destruct (Nat.ltb_spec (RSA.emLen_of (RSA.key_size k - 1))
                  (RSA.hLen + List.length salt + 2)); [lia | discriminate]. }
  pose proof (emsa_pss_encode_bound _ _ _ _ Hbits Hsalt Henc) as Hm.
  set (m := RSA.OS2IP EM) in *.
  set (s := Zpow_mod m (RSA.private_exponent k) (RSA.modulus k)).
  pose proof (Zpow_mod_bound m (RSA.private_exponent k) _ Hn) as Hs. fold s in Hs.
  exists (SHA256.be_bytes (RSA.key_bytes k) s). split; [|split; [|split]].
  - unfold RSA.pss_sign. rewrite Henc. fold m.
    unfold RSA.RSASP1.
    replace ((0 <=? m) && (m <? RSA.modulus k)) with true
      by (symmetry; apply andb_true_iff; split; [apply Z.leb_le | apply Z.ltb_lt]; lia).
    fold s. unfold RSA.I2OSP.
    replace ((0 <=? s) && (s <? 256 ^ Z.of_nat (RSA.key_bytes k))) with true
      by (symmetry; apply andb_true_iff; split; [apply Z.leb_le | apply Z.ltb_lt]; lia).
    reflexivity.
  - apply be_bytes_length.
  - apply be_bytes_is_byte.
  - unfold RSA.OS2IP. rewrite be_value_bytes by lia. exact Hs.
Qed.

(** On encoded text, [sign_message] with a key of 266 bits or more returns
    a signature as long as the modulus. *)
Lemma sign_message_returns_text (k : RSA.numbers) (message : string)
    (urandom : random_source) :
  266 <= RSA.key_size k ->
  urandom_ok urandom ->
  exists signature : bytes,
    sign_message (RSA.rsa_private_key k) message urandom = Return signature /\
    List.length signature = Z.to_nat ((RSA.key_size k + 7) / 8) /\
    Forall is_byte signature /\
    0 <= RSA.OS2IP signature < RSA.modulus k.
Proof.
  intros Hsize Hrand.
  destruct (max_salt_length k Hsize) as [Hs0 Hslen].
  destruct (Hrand (Z.to_nat (RSA.salt_length_of k PSS_MAX_LENGTH))) as [Hl Hb].
  destruct (pss_sign_returns k (encode message) (max_salt k urandom))
    as (S & Hsign & Hlen & Hbytes & Hval);
    [lia | exact Hb | unfold max_salt; rewrite Hl; lia |].
  exists S. split; [|split; [exact Hlen | split; [exact Hbytes | exact Hval]]].
  unfold sign_message. cbn [sign RSA.rsa_private_key RSA.rsa_sign].
  destruct (Z.ltb_spec (RSA.salt_length_of k PSS_MAX_LENGTH) 0); [lia|].
  fold (max_salt k urandom). rewrite Hsign. reflexivity.
Qed.

(** X5: [sign_message] with a key of 266 bits or more, on a message that
    UTF-8 can encode, returns a signature of exactly the length of the
    modulus in bytes (256 for a 2048-bit key), made of byte values, whose
    value is below the modulus. *)
Theorem sign_message_length (k : RSA.numbers) (message : Py.str) (data : bytes)
    (urandom : random_source) :
  266 <= RSA.key_size k ->
  urandom_ok urandom ->
  Py.encode message = Return data ->
  exists signature : bytes,
    Py.sign_message (RSA.rsa_private_key k) message urandom = Return signature /\
    List.length signature = Z.to_nat ((RSA.key_size k + 7) / 8) /\
    Forall is_byte signature /\
    0 <= RSA.OS2IP signature < RSA.modulus k.
Proof.
  intros Hsize Hrand Hm.
  rewrite (Py_sign_message_text _ message data urandom Hm).
  apply sign_message_returns_text; assumption.
Qed.

Lemma sign_message_length_witness :
  266 <= RSA.key_size openssl_key /\
  urandom_ok (constant_source 7) /\
  Py.encode (Py.of_text "China-MY25") = Return (encode "China-MY25") /\
  exists signature : bytes,
    Py.sign_message (RSA.rsa_private_key openssl_key) (Py.of_text "China-MY25")
      (constant_source 7)
    = Return signature /\
    List.length signature = Z.to_nat ((RSA.key_size openssl_key + 7) / 8) /\
    Forall is_byte signature /\
    0 <= RSA.OS2IP signature < RSA.modulus openssl_key.
Proof.
  assert (H1 : 266 <= RSA.key_size openssl_key) by (vm_compute; discriminate).
  assert (H2 : urandom_ok (constant_source 7))
    by (apply constant_source_ok; unfold is_byte; lia).
  assert (H3 : Py.encode (Py.of_text "China-MY25") = Return (encode "China-MY25"))
    by reflexivity.
  split; [exact H1|]. split; [exact H2|]. split; [exact H3|].
  exact (sign_message_length openssl_key (Py.of_text "China-MY25")
           (encode "China-MY25") (constant_source 7) H1 H2 H3).
Defined.

(** X6: a key of fewer than 266 bits has no room for a SHA-256 PSS encoding:
    the library raises an instance of [Exception]; [sign_message] does not
    catch it and raises it too, while [verify_signature] catches it and
    returns [False] for every message and signature. *)
Theorem small_key_sign_raises_verify_false (k : RSA.numbers) (message : string)
    (signature : bytes) (urandom : random_source) :
  RSA.key_size k < 266 ->
  (exists e : exn,
     sign_message (RSA.rsa_private_key k) message urandom = Raise e /\
     is_Exception e = true) /\
  verify_signature (RSA.rsa_public_key k) message signature = Return false.
Proof.
  intros Hsize.
  assert (Hneg : RSA.salt_length_of k PSS_MAX_LENGTH < 0).
  { unfold RSA.salt_length_of, RSA.hLen.
    pose proof (Z.div_mod (RSA.key_size k + 6) 8 ltac:(lia)).
    pose proof (Z.mod_pos_bound (RSA.key_size k + 6) 8 ltac:(lia)).
    cbn [Z.of_nat Pos.of_succ_nat Pos.succ]. lia. }
  apply Z.ltb_lt in Hneg. split.
  - exists ValueError. split; [|reflexivity].
    unfold sign_message. cbn [sign RSA.rsa_private_key RSA.rsa_sign].
    rewrite Hneg. reflexivity.
  - unfold verify_signature. cbn [verify RSA.rsa_public_key RSA.rsa_verify].
    rewrite Hneg. reflexivity.
Qed.

Lemma small_key_sign_raises_verify_false_witness :
  RSA.key_size (RSA.mkNumbers 3233 17 413) < 266 /\
  (exists e : exn,
     sign_message (RSA.rsa_private_key (RSA.mkNumbers 3233 17 413)) "China-MY25"
       (constant_source 7) = Raise e /\
     is_Exception e = true) /\
  verify_signature (RSA.rsa_public_key (RSA.mkNumbers 3233 17 413)) "China-MY25"
    [12; 34] = Return false.
Proof.
  assert (H : RSA.key_size (RSA.mkNumbers 3233 17 413) < 266) by (vm_compute; reflexivity).
  split; [exact H|].
  exact (small_key_sign_raises_verify_false (RSA.mkNumbers 3233 17 413) "China-MY25"
           [12; 34] (constant_source 7) H).
Defined.

(** ** RSA keys made of two primes *)

Lemma pow_mod_congr (x y c r : Z) :
  0 < r -> x mod r = y mod r -> (x ^ c) mod r = (y ^ c) mod r.
Proof.
  intros Hr H. rewrite (Zpower_mod x) by lia. rewrite (Zpower_mod y) by lia.
  now rewrite H.
Qed.

Lemma pow_mod_one (x c r : Z) :
  1 < r -> 0 <= c -> x mod r = 1 -> (x ^ c) mod r = 1.
Proof.
  intros Hr Hc H. rewrite Zpower_mod by lia. rewrite H, Z.pow_1_l by lia.
  apply Z.mod_1_l. lia.
Qed.

(** Fermat: an exponent that is 1 modulo [p - 1] fixes every residue. *)
Lemma prime_fixes (p m x : Z) :
  Z.prime p -> 1 <= x -> (p - 1 | x - 1) -> (m ^ x) mod p = m mod p.
Proof.
  intros Hp Hx [t Ht].
  pose proof (Z.prime_ge_2 p Hp) as Hp2.
  assert (Ht0 : 0 <= t) by nia.
  destruct (Z.eq_dec (m mod p) 0) as [Hz|Hnz].
  - rewrite Zpower_mod, Hz by lia. rewrite Z.pow_0_l by lia. reflexivity.
  - replace x with (1 + (p - 1) * t) by lia.
    rewrite Z.pow_add_r, Z.pow_1_r, Z.pow_mul_r by lia.
    rewrite Z.mul_mod by lia.
    rewrite (pow_mod_one (m ^ (p - 1)) t p) by (try lia; now apply Z.fermat_nz).
    rewrite Z.mul_1_r. apply Z.mod_mod. lia.
Qed.

Lemma distinct_primes_coprime (p q : Z) :
  Z.prime p -> Z.prime q -> p <> q -> Z.gcd p q = 1.
Proof.
  intros Hp Hq Hne. apply Z.coprime_prime_l; [exact Hp|].
  intros Hd. pose proof (Z.prime_ge_2 p Hp) as Hp2.
  pose proof (Z.prime_ge_2 q Hq) as Hq2.
  destruct (Z.divide_prime_r p q Hq Hd) as [H|[H|[H|H]]]; lia.
Qed.

Lemma two_primes_fix (p q m x : Z) :
  Z.prime p -> Z.prime q -> p <> q ->
  1 <= x -> (p - 1 | x - 1) -> (q - 1 | x - 1) ->
  0 <= m < p * q ->
  (m ^ x) mod (p * q) = m.
Proof.
  intros Hp Hq Hne Hx Hxp Hxq Hm.
  pose proof (Z.prime_ge_2 p Hp) as Hp2. pose proof (Z.prime_ge_2 q Hq) as Hq2.
  assert (Hdp : (p | m ^ x - m)).
  { apply Z.mod_divide; [lia|]. rewrite Zminus_mod.
    rewrite (prime_fixes p m x Hp Hx Hxp).
    rewrite Z.sub_diag. apply Z.mod_0_l. lia. }
  assert (Hdq : (q | m ^ x - m)).
  { apply Z.mod_divide; [lia|]. rewrite Zminus_mod.
    rewrite (prime_fixes q m x Hq Hx Hxq).
    rewrite Z.sub_diag. apply Z.mod_0_l. lia. }
  destruct Hdp as [y Hy].
  assert (Hqy : (q | y)).
  { apply (Z.gauss q p y).
    - rewrite Z.mul_comm, <- Hy. exact Hdq.
    - rewrite Z.gcd_comm. now apply distinct_primes_coprime. }
  destruct Hqy as [z Hz].
  replace (m ^ x) with (m + z * (p * q)) by nia.
  rewrite Z.mod_add by nia. apply Z.mod_small. exact Hm.
Qed.

(** RSA with two distinct primes: the inverse of the public exponent modulo
    a common multiple [L] of [p - 1] and [q - 1] is a private exponent. *)
Lemma two_primes_key_pair (p q e L : Z) :
  Z.prime p -> Z.prime q -> p <> q ->
  0 <= e -> 0 < L -> (p - 1 | L) -> (q - 1 | L) -> Z.gcd e L = 1 ->
  is_key_pair (RSA.mkNumbers (p * q) e (Z.invmod e L)).
Proof.
  intros Hp Hq Hne He HL HpL HqL Hco m Hm.
  cbn [RSA.modulus RSA.public_exponent RSA.private_exponent] in *.
  pose proof (Z.prime_ge_2 p Hp) as Hp2. pose proof (Z.prime_ge_2 q Hq) as Hq2.
  set (d := Z.invmod e L).
  assert (HL2 : 2 <= L).
  { assert (Hbig : 2 <= p - 1 \/ 2 <= q - 1) by lia.
    destruct Hbig as [Hb|Hb]; [apply Z.divide_pos_le in HpL | apply Z.divide_pos_le in HqL];
      lia. }
  assert (Hd : 0 <= d).
  { unfold d. rewrite <- Z.mod_invmod. apply Z.mod_pos_bound. lia. }
  assert (Hinv : (d * e) mod L = 1 mod L).
  { unfold d. apply Z.invmod_coprime'. exact Hco. }
  rewrite !Zpow_mod_correct by nia.
  rewrite <- Zpower_mod by nia. rewrite <- Z.pow_mul_r by lia.
  rewrite (Z.mod_1_l L) in Hinv by lia.
  assert (Hdiv : (L | d * e - 1)).
  { apply Z.mod_divide; [lia|]. rewrite Zminus_mod, Hinv.
    rewrite (Z.mod_1_l L) by lia. reflexivity. }
  assert (Hx : 1 <= d * e).
  { destruct (Z.eq_dec (d * e) 0) as [H0|H0].
    - rewrite H0, Z.mod_0_l in Hinv by lia. discriminate.
    - nia. }
  apply two_primes_fix; try assumption.
  - eapply Z.divide_trans; [exact HpL | exact Hdiv].
  - eapply Z.divide_trans; [exact HqL | exact Hdiv].
Qed.

Lemma coprime_divisor (e L M : Z) : (L | M) -> Z.gcd e M = 1 -> Z.gcd e L = 1.
Proof.
  intros HLM Hco.
  assert (Hg : (Z.gcd e L | 1)).
  { rewrite <- Hco. apply Z.gcd_greatest; [apply Z.gcd_divide_l|].
    eapply Z.divide_trans; [apply Z.gcd_divide_r | exact HLM]. }
  apply Z.divide_1_r_nonneg in Hg; [exact Hg | apply Z.gcd_nonneg].
Qed.

(** ** Proth's criterion, for the primes of the examples *)

Lemma least_divisor (n : Z) :
  1 < n ->
  exists r, 1 < r <= n /\ (r | n) /\ forall j, 1 < j < r -> ~ (j | n).
Proof.
  intros Hn.
  assert (H : forall b : nat,
             (exists r, 1 < r <= n /\ (r | n) /\ forall j, 1 < j < r -> ~ (j | n))
             \/ forall j, 1 < j <= Z.of_nat b -> ~ (j | n)).
  { induction b as [|b IH].
    - right. intros j Hj. lia.
    - destruct IH as [IH|IH]; [left; exact IH|].
      destruct (Z.eq_dec (n mod Z.of_nat (S b)) 0) as [Hz|Hnz].
      + destruct (Z_le_gt_dec (Z.of_nat (S b)) 1) as [Hsmall|Hbig].
        * right. intros j Hj. lia.
        * destruct (Z_le_gt_dec (Z.of_nat (S b)) n) as [Hle|Hgt].
          -- left. exists (Z.of_nat (S b)). split; [lia|]. split.
             ++ apply Z.mod_divide; [lia | exact Hz].
             ++ intros j Hj. apply IH. lia.
          -- right. intros j Hj Hd.
             destruct (Z.eq_dec j (Z.of_nat (S b))) as [->|Hne].
             ++ apply Z.divide_pos_le in Hd; lia.
             ++ apply (IH j); [lia | exact Hd].
      + right. intros j Hj Hd.
        destruct (Z.eq_dec j (Z.of_nat (S b))) as [->|Hne].
        * apply Hnz. apply Z.mod_divide; [lia | exact Hd].
        * apply (IH j); [lia | exact Hd]. }
  destruct (H (Z.to_nat n)) as [Hr|Hno]; [exact Hr|].
  exfalso. apply (Hno n); [lia | apply Z.divide_refl].
Qed.

Lemma least_divisor_prime (n r : Z) :
  1 < r -> (r | n) -> (forall j, 1 < j < r -> ~ (j | n)) -> Z.prime r.
Proof.
  intros Hr Hd Hmin. split; [exact Hr|].
  intros j Hj Hjr. apply (Hmin j Hj). eapply Z.divide_trans; eassumption.
Qed.

Lemma odd_part (t : Z) :
  0 < t -> exists j u, 0 <= j /\ Z.odd u = true /\ 0 < u /\ t = 2 ^ j * u.
Proof.
  assert (H : forall (b : nat) (x : Z), 0 < x <= Z.of_nat b ->
             exists j u, 0 <= j /\ Z.odd u = true /\ 0 < u /\ x = 2 ^ j * u).
  { induction b as [|b IH]; intros x Hx; [lia|].
    destruct (Z.odd x) eqn:Hodd.
    - exists 0, x. repeat split; try lia; try assumption.
    - assert (Hev : Z.even x = true) by (rewrite <- Z.negb_odd, Hodd; reflexivity).
      apply Z.even_spec in Hev. destruct Hev as [h Hh].
      destruct (IH h) as (j & u & Hj & Hu & Hu0 & Hhu); [lia|].
      exists (j + 1), u. repeat split; try lia; try assumption.
      rewrite Z.pow_add_r, Z.pow_1_r by lia. lia. }
  intros Ht. apply (H (Z.to_nat t)). lia.
Qed.

(** Proth: [k * 2^n + 1] with [k < 2^n] is prime when some [a] has
    [a ^ ((N - 1) / 2) = -1] modulo [N]. *)
Lemma proth_prime (k n a : Z) :
  1 <= n -> 0 < k < 2 ^ n ->
  Zpow_mod a (k * 2 ^ (n - 1)) (k * 2 ^ n + 1) = k * 2 ^ n ->
  Z.prime (k * 2 ^ n + 1).
Proof.
  intros Hn Hk Hpow.
  set (N := k * 2 ^ n + 1) in *.
  assert (H2n : 2 ^ n = 2 * 2 ^ (n - 1)).
  { replace n with (1 + (n - 1)) at 1 by lia. rewrite Z.pow_add_r by lia. reflexivity. }
  assert (Hpn : 0 < 2 ^ (n - 1)) by (apply Z.pow_pos_nonneg; lia).
  assert (HN : 1 < N) by (unfold N; nia).
  rewrite Zpow_mod_correct in Hpow by lia.
  (* any prime divisor [r] of [N] with [r < 2^n] is contradictory *)
  assert (Hmain : forall r, Z.prime r -> (r | N) -> r < 2 ^ n -> False).
  { intros r Hr HrN Hsmall.
    pose proof (Z.prime_ge_2 r Hr) as Hr2.
    set (e := k * 2 ^ (n - 1)) in *.
    assert (He : 1 <= e) by (unfold e; nia).
    assert (Hminus : (a ^ e) mod r = (-1) mod r).
    { destruct HrN as [c Hc].
      pose proof (Z.div_mod (a ^ e) N ltac:(lia)) as Hdm. rewrite Hpow in Hdm.
      assert (HkN : k * 2 ^ n = N - 1) by (unfold N; lia).
      rewrite HkN in Hdm. set (Q := a ^ e / N) in Hdm.
      rewrite Hdm, Hc.
      replace (c * r * Q + (c * r - 1)) with (-1 + (c * Q + c) * r) by ring.
      apply Z.mod_add. lia. }
    assert (Hanz : a mod r <> 0).
    { intros Hz. rewrite Zpower_mod, Hz, Z.pow_0_l in Hminus by lia.
      rewrite Z.mod_0_l in Hminus by lia.
      symmetry in Hminus. apply Z.mod_divide in Hminus; [|lia].
      apply Z.divide_opp_r in Hminus. cbn in Hminus.
      apply Z.divide_1_r in Hminus. lia. }
    pose proof (Z.fermat_nz r a Hr Hanz) as Hf.
    destruct (odd_part (r - 1) ltac:(lia)) as (j & u & Hj & Hu & Hu0 & Hru).
    assert (Hjn : j <= n - 1).
    { destruct (Z_le_gt_dec j (n - 1)) as [H|H]; [exact H|]. exfalso.
      assert (2 ^ n <= 2 ^ j) by (apply Z.pow_le_mono_r; lia).
      assert (2 ^ j <= r - 1) by (rewrite Hru; nia). lia. }
    (* [a ^ (e * u)] is both [-1] and [1] modulo [r] *)
    assert (H1 : (a ^ (e * u)) mod r = (-1) mod r).
    { rewrite Z.pow_mul_r by lia.
      rewrite (pow_mod_congr (a ^ e) (-1) u r) by (try lia; exact Hminus).
      change (-1) with (- (1)). rewrite Z.pow_opp_odd by (apply Z.odd_spec; exact Hu).
      rewrite Z.pow_1_l by lia. reflexivity. }
    assert (H2 : (a ^ (e * u)) mod r = 1).
    { assert (Hc0 : 0 <= k * 2 ^ (n - 1 - j)).
      { apply Z.mul_nonneg_nonneg; [lia|]. apply Z.pow_nonneg. lia. }
      replace (e * u) with ((r - 1) * (k * 2 ^ (n - 1 - j))).
      - rewrite Z.pow_mul_r by lia.
        apply pow_mod_one; [lia | exact Hc0 | exact Hf].
      - unfold e. rewrite Hru.
        replace (2 ^ (n - 1)) with (2 ^ j * 2 ^ (n - 1 - j))
          by (rewrite <- Z.pow_add_r by lia; f_equal; lia).
        ring. }
    rewrite H2 in H1.
    (* so [r] divides 2 *)
    assert (Hr2' : (r | 2)).
    { apply Z.mod_divide; [lia|].
      replace 2 with (1 - (-1)) by lia. rewrite Zminus_mod, <- H1.
      rewrite (Z.mod_1_l r) by lia. rewrite Z.sub_diag. apply Z.mod_0_l. lia. }
    apply Z.divide_pos_le in Hr2'; [|lia].
    assert (r = 2) by lia. subst r.
    destruct HrN as [c Hc]. unfold N in Hc. rewrite H2n in Hc. lia. }
  split; [exact HN|].
  intros d Hd HdN.
  destruct (least_divisor N HN) as (r & Hr & HrN & Hmin).
  pose proof (least_divisor_prime N r ltac:(lia) HrN Hmin) as Hrp.
  apply (Hmain r Hrp HrN).
  (* r * r <= N < 2^n * 2^n *)
  destruct HdN as [c Hc].
  assert (Hc1 : 1 < c) by nia.
  assert (HcN : (c | N)) by (exists d; lia).
  assert (Hrd : r <= d).
  { destruct (Z_le_gt_dec r d) as [H|H]; [exact H|]. exfalso.
    apply (Hmin d); [lia | exists c; exact Hc]. }
  assert (Hrc : r <= c).
  { destruct (Z_le_gt_dec r c) as [H|H]; [exact H|]. exfalso.
    apply (Hmin c); [lia | exact HcN]. }
  assert (r * r <= N) by nia.
  assert (N < 2 ^ n * 2 ^ n) by (unfold N; nia).
  nia.
Qed.

(** ** Generated keys *)

Lemma proth_p_prime : Z.prime proth_p.
Proof.
  apply (proth_prime 1178855498621722530717 72 5); [lia | vm_compute; split; reflexivity |].
  vm_compute. reflexivity.
Qed.

Lemma proth_q_prime : Z.prime proth_q.
Proof.
  apply (proth_prime 1071648160044789083335 72 3); [lia | vm_compute; split; reflexivity |].
  vm_compute. reflexivity.
Qed.

(** The model rebuilds the keys OpenSSL generated from their primes: the
    512-bit key and the 2048-bit key. *)
Example openssl_key_generated :
  generated_numbers 65537 512 openssl_p openssl_q = openssl_key /\
  generated_numbers 65537 2048 openssl_2048_p openssl_2048_q = openssl_2048_key.
Proof. split; vm_compute; reflexivity. Qed.

(** The numbers [rsa.generate_private_key] builds are an RSA key pair, for
    either way of inverting the public exponent. *)
Lemma generated_numbers_key_pair (public_exponent key_size p q : Z) :
  Z.prime p -> Z.prime q -> p <> q ->
  0 <= public_exponent ->
  Z.gcd public_exponent ((p - 1) * (q - 1)) = 1 ->
  is_key_pair (generated_numbers public_exponent key_size p q).
Proof.
  intros Hp Hq Hne He Hco. unfold generated_numbers.
  pose proof (Z.prime_ge_2 p Hp) as Hp2. pose proof (Z.prime_ge_2 q Hq) as Hq2.
  destruct (2048 <=? key_size).
  - apply two_primes_key_pair; try assumption.
    + pose proof (Z.lcm_nonneg (p - 1) (q - 1)) as H0.
      destruct (Z.eq_dec (Z.lcm (p - 1) (q - 1)) 0) as [Hz|Hz]; [|lia].
      apply Z.lcm_eq_0 in Hz. lia.
    + apply Z.divide_lcm_l.
    + apply Z.divide_lcm_r.
    + apply (coprime_divisor _ _ ((p - 1) * (q - 1))); [|exact Hco].
      apply Z.lcm_least; [apply Z.divide_factor_l | apply Z.divide_factor_r].
  - apply two_primes_key_pair; try assumption.
    + nia.
    + apply Z.divide_factor_l.
    + apply Z.divide_factor_r.
Qed.

Lemma generate_rsa_keypair_numbers (p q : Z) :
  generate_rsa_keypair p q
  = (RSA.rsa_private_key (generated_numbers 65537 2048 p q),
     RSA.rsa_public_key (generated_numbers 65537 2048 p q)).
Proof. reflexivity. Qed.

(** The private exponent of a generated key is the inverse of 65537 modulo
    the least common multiple of [p - 1] and [q - 1]. *)
Lemma generate_rsa_keypair_exponent (p q : Z) :
  RSA.private_exponent (generated_numbers 65537 2048 p q)
  = Z.invmod 65537 (Z.lcm (p - 1) (q - 1)).
Proof. reflexivity. Qed.

(** X11: a message that UTF-8 can encode, signed with the private key
    [generate_rsa_keypair] returns, verifies under the public key it
    returns, for every pair of primes the library may have drawn (of 266 bits
    or more together, as the 2048 asked for are) and every salt. *)
Theorem generated_keypair_round_trip (p q : Z) (message : Py.str) (data : bytes)
    (urandom : random_source) :
  Z.prime p -> Z.prime q -> p <> q ->
  Z.gcd 65537 ((p - 1) * (q - 1)) = 1 ->
  266 <= Z.log2 (p * q) + 1 ->
  urandom_ok urandom ->
  Py.encode message = Return data ->
  exists signature : bytes,
    Py.sign_message (fst (generate_rsa_keypair p q)) message urandom
    = Return signature /\
    Py.verify_signature (snd (generate_rsa_keypair p q)) message signature
    = Return true.
Proof.
  intros Hp Hq Hne Hco Hsize Hrand Hm.
  rewrite generate_rsa_keypair_numbers. cbn [fst snd].
  pose proof (generated_numbers_key_pair 65537 2048 p q Hp Hq Hne ltac:(lia) Hco)
    as Hkey.
  destruct (Py_verify_signature_sign_message (generated_numbers 65537 2048 p q)
              message message data data urandom Hsize Hkey Hrand Hm Hm)
    as (signature & Hsign & Hver).
  exists signature. split; [exact Hsign|].
  cbn [public_key RSA.rsa_private_key] in Hver.
  rewrite Hver, bytes_eqb_refl. reflexivity.
Qed.

Lemma generated_keypair_round_trip_witness :
  Z.prime proth_p /\ Z.prime proth_q /\ proth_p <> proth_q /\
  Z.gcd 65537 ((proth_p - 1) * (proth_q - 1)) = 1 /\
  266 <= Z.log2 (proth_p * proth_q) + 1 /\
  urandom_ok (constant_source 7) /\
  Py.encode (Py.of_text "China-MY117988") = Return (encode "China-MY117988") /\
  exists signature : bytes,
    Py.sign_message (fst (generate_rsa_keypair proth_p proth_q))
      (Py.of_text "China-MY117988") (constant_source 7) = Return signature /\
    Py.verify_signature (snd (generate_rsa_keypair proth_p proth_q))
      (Py.of_text "China-MY117988") signature = Return true.
Proof.
  assert (H3 : proth_p <> proth_q) by (vm_compute; discriminate).
  assert (H4 : Z.gcd 65537 ((proth_p - 1) * (proth_q - 1)) = 1)
    by (vm_compute; reflexivity).
  assert (H5 : 266 <= Z.log2 (proth_p * proth_q) + 1) by (vm_compute; discriminate).
  assert (H6 : urandom_ok (constant_source 7))
    by (apply constant_source_ok; unfold is_byte; lia).
  assert (H7 : Py.encode (Py.of_text "China-MY117988")
               = Return (encode "China-MY117988")) by reflexivity.
  split; [exact proth_p_prime|]. split; [exact proth_q_prime|].
  split; [exact H3|]. split; [exact H4|]. split; [exact H5|]. split; [exact H6|].
  split; [exact H7|].
  exact (generated_keypair_round_trip proth_p proth_q (Py.of_text "China-MY117988")
           (encode "China-MY117988") (constant_source 7)
           proth_p_prime proth_q_prime H3 H4 H5 H6 H7).
Defined.

(** X12: the demonstration of [main]: the input that wins the search is signed
    with the generated private key; its digest starts with the zeros asked
    for, its signature verifies, and the signature does not verify against
    the input with "tampered" appended unless the two hashes H agree. *)
Theorem signed_commitment (p q : Z) (nickname : Py.str) (data : bytes)
    (target_zeros : Z) (c : N) (fuel : nat) (memory : N)
    (urandom : random_source) :
  Z.prime p -> Z.prime q -> p <> q ->
  Z.gcd 65537 ((p - 1) * (q - 1)) = 1 ->
  266 <= Z.log2 (p * q) + 1 ->
  urandom_ok urandom ->
  Py.encode nickname = Return data ->
  - 2 ^ 63 <= target_zeros <= Z.of_N memory ->
  startswith (SHA256.hexdigest (data ++ encode (decimal c)))
    (str_mul "0" target_zeros) = true ->
  (N.to_nat c < fuel)%nat ->
  exists (nonce : N) (hash_content : Py.str) (hash_value : string)
         (message signature : bytes),
    Py.find_pow_hash fuel memory nickname target_zeros
    = Some (Return (nonce, hash_content, hash_value)) /\
    hash_content = nickname ++ Py.of_text (decimal nonce) /\
    startswith hash_value (str_mul "0" target_zeros) = true /\
    Py.encode hash_content = Return message /\
    Py.sign_message (fst (generate_rsa_keypair p q)) hash_content urandom
    = Return signature /\
    Py.verify_signature (snd (generate_rsa_keypair p q)) hash_content signature
    = Return true /\
    (RSA.pss_hash (message ++ encode "tampered")
       (max_salt (generated_numbers 65537 2048 p q) urandom)
     <> RSA.pss_hash message
          (max_salt (generated_numbers 65537 2048 p q) urandom) ->
     Py.verify_signature (snd (generate_rsa_keypair p q))
       (hash_content ++ Py.of_text "tampered") signature
     = Return false).
Proof.
  intros Hp Hq Hne Hco Hsize Hrand Hseed Hd Hmeets Hfuel.
  pose proof (Py_encode_is_byte nickname data Hseed) as Hb.
  assert (Hmeets' : meets (text_of_bytes data) target_zeros c = true).
  { unfold meets, digest_of. rewrite encode_app, (encode_text_of_bytes data Hb).
    exact Hmeets. }
  assert (Hd64 : target_zeros <= 64) by (apply meets_bound in Hmeets'; lia).
  destruct (pow_mining_complete _ target_zeros c Hmeets' fuel steady_world Hfuel)
    as (r & w' & E).
  pose proof (find_pow_hash_loop_eq fuel (text_of_bytes data) (str_mul "0" target_zeros)
                (clock steady_world (reads steady_world)) 0%N
                (snd (time_time steady_world))) as Hfind.
  fold (find_pow_hash fuel (text_of_bytes data) target_zeros) in Hfind.
  assert (E' : pow_mining fuel (text_of_bytes data) target_zeros steady_world
               = Some (r, w')) by exact E.
  unfold pow_mining in E. cbn [time_time] in E.
  cbn [time_time snd] in Hfind. rewrite E in Hfind. cbn [option_map fst] in Hfind.
  apply pow_mining_sound in E'.
  destruct E' as (k & _ & _ & Hc & Hdig & Hm & _).
  destruct r as [[[nonce content] hash_value] elapsed].
  cbn [res_nonce res_content res_digest fst snd] in *.
  set (hash_content := nickname ++ Py.of_text (decimal nonce)).
  assert (Henc : Py.encode hash_content = Return (data ++ encode (decimal nonce)))
    by (apply Py_encode_content; exact Hseed).
  assert (Henc' : Py.encode (hash_content ++ Py.of_text "tampered")
                  = Return ((data ++ encode (decimal nonce)) ++ encode "tampered")).
  { rewrite Py_encode_app, Henc. reflexivity. }
  rewrite generate_rsa_keypair_numbers. cbn [fst snd].
  pose proof (generated_numbers_key_pair 65537 2048 p q Hp Hq Hne ltac:(lia) Hco)
    as Hkey.
  destruct (Py_verify_signature_sign_message (generated_numbers 65537 2048 p q)
              hash_content hash_content _ _ urandom Hsize Hkey Hrand Henc Henc)
    as (signature & Hsign & Hver).
  destruct (Py_verify_signature_sign_message (generated_numbers 65537 2048 p q)
              hash_content (hash_content ++ Py.of_text "tampered") _ _ urandom
              Hsize Hkey Hrand Henc Henc')
    as (signature' & Hsign' & Hver').
  assert (signature' = signature) by congruence. subst signature'.
  cbn [public_key RSA.rsa_private_key] in Hver, Hver'.
  exists nonce, hash_content, hash_value, (data ++ encode (decimal nonce)), signature.
  split.
  { rewrite (Py_find_pow_hash_text fuel memory nickname data target_zeros Hseed)
      by lia.
    rewrite Hfind. reflexivity. }
  split; [reflexivity|].
  split; [unfold meets in Hm; rewrite <- Hdig in Hm; exact Hm|].
  split; [exact Henc|].
  split; [exact Hsign|]. split.
  - rewrite Hver, bytes_eqb_refl. reflexivity.
  - intros Hneq. rewrite Hver', bytes_eqb_neq; [reflexivity|].
    intros Heq. apply Hneq. symmetry. exact Heq.
Qed.

Lemma signed_commitment_witness :
  Z.prime proth_p /\ Z.prime proth_q /\ proth_p <> proth_q /\
  Z.gcd 65537 ((proth_p - 1) * (proth_q - 1)) = 1 /\
  266 <= Z.log2 (proth_p * proth_q) + 1 /\
  urandom_ok (constant_source 7) /\
  Py.encode (Py.of_text "China-MY") = Return (encode "China-MY") /\
  - 2 ^ 63 <= 1 <= Z.of_N 1024 /\
  startswith (SHA256.hexdigest (encode "China-MY" ++ encode (decimal 25)))
    (str_mul "0" 1) = true /\
  (N.to_nat 25 < 26)%nat /\
  exists signature : bytes,
    Py.find_pow_hash 26 1024 (Py.of_text "China-MY") 1
    = Some (Return (25%N, Py.of_text "China-MY25",
                    "0edc234120191c3e18c8d4a9390b634611251455c38214092be9c979b0a1eccc"%string)) /\
    Py.sign_message (fst (generate_rsa_keypair proth_p proth_q))
      (Py.of_text "China-MY25") (constant_source 7) = Return signature /\
    Py.verify_signature (snd (generate_rsa_keypair proth_p proth_q))
      (Py.of_text "China-MY25") signature = Return true /\
    Py.verify_signature (snd (generate_rsa_keypair proth_p proth_q))
      (Py.of_text "China-MY25" ++ Py.of_text "tampered") signature = Return false.
Proof.
  assert (H3 : proth_p <> proth_q) by (vm_compute; discriminate).
  assert (H4 : Z.gcd 65537 ((proth_p - 1) * (proth_q - 1)) = 1)
    by (vm_compute; reflexivity).
  assert (H5 : 266 <= Z.log2 (proth_p * proth_q) + 1) by (vm_compute; discriminate).
  assert (H6 : urandom_ok (constant_source 7))
    by (apply constant_source_ok; unfold is_byte; lia).
  assert (H7 : Py.encode (Py.of_text "China-MY") = Return (encode "China-MY"))
    by reflexivity.
  assert (H8 : - 2 ^ 63 <= 1 <= Z.of_N 1024) by (cbn; lia).
  assert (H9 : startswith (SHA256.hexdigest (encode "China-MY" ++ encode (decimal 25)))
                 (str_mul "0" 1) = true) by (vm_compute; reflexivity).
  assert (H10 : (N.to_nat 25 < 26)%nat) by (cbn; lia).
  split; [exact proth_p_prime|]. split; [exact proth_q_prime|].
  split; [exact H3|]. split; [exact H4|]. split; [exact H5|]. split; [exact H6|].
  split; [exact H7|]. split; [exact H8|]. split; [exact H9|]. split; [exact H10|].
  destruct (signed_commitment proth_p proth_q (Py.of_text "China-MY")
              (encode "China-MY") 1 25 26 1024 (constant_source 7)
              proth_p_prime proth_q_prime H3 H4 H5 H6 H7 H8 H9 H10)
    as (nonce & hash_content & hash_value & message & signature
        & Hfind & Hcontent & _ & Henc & Hsign & Hver & Htamper).
  assert (E : Py.find_pow_hash 26 1024 (Py.of_text "China-MY") 1
              = Some (Return (25%N, Py.of_text "China-MY25",
                   "0edc234120191c3e18c8d4a9390b634611251455c38214092be9c979b0a1eccc"%string)))
    by (vm_compute; reflexivity).
  rewrite E in Hfind. apply Some_inj, Return_inj in Hfind.
  assert (Hn : nonce = 25%N) by congruence.
  assert (Hh : hash_content = Py.of_text "China-MY25") by congruence.
  subst nonce hash_content.
  change (Py.encode (Py.of_text "China-MY25"))
    with (Return (A := bytes) (encode "China-MY25")) in Henc.
  apply Return_inj in Henc. subst message.
  exists signature. split; [exact E|]. split; [exact Hsign|]. split; [exact Hver|].
  apply Htamper. intros H. apply bytes_eqb_eq in H. vm_compute in H. discriminate H.
Defined.

(** ** find_pow_hash *)

(** X4: [find_pow_hash] returns as soon as its fuel passes a counter that meets
    the difficulty: the nonce it returns is the least one whose digest starts
    with the target, [hash_content] is the nickname followed by its decimal
    text and [hash_value] the 64-character SHA-256 hex digest of that. *)
Theorem find_pow_hash_least (nickname : string) (target_zeros : Z) (c : N)
    (fuel : nat) :
  meets nickname target_zeros c = true ->
  (N.to_nat c < fuel)%nat ->
  exists (nonce : N) (hash_content hash_value : string),
    find_pow_hash fuel nickname target_zeros = Some (nonce, hash_content, hash_value) /\
    (nonce <= c)%N /\
    hash_content = (nickname ++ decimal nonce)%string /\
    hash_value = SHA256.hexdigest (encode hash_content) /\
    String.length hash_value = 64%nat /\
    startswith hash_value (str_mul "0" target_zeros) = true /\
    forall n : N, (n < nonce)%N ->
      startswith (SHA256.hexdigest (encode (nickname ++ decimal n)%string))
        (str_mul "0" target_zeros) = false.
Proof.
  intros Hmeets Hfuel.
  destruct (pow_mining_complete nickname target_zeros c Hmeets fuel steady_world Hfuel)
    as (r & w' & E).
  pose proof (find_pow_hash_loop_eq fuel nickname (str_mul "0" target_zeros)
                (clock steady_world (reads steady_world)) 0%N
                (snd (time_time steady_world))) as Hfind.
  fold (find_pow_hash fuel nickname target_zeros) in Hfind.
  assert (E' : pow_mining fuel nickname target_zeros steady_world = Some (r, w'))
    by exact E.
  unfold pow_mining in E. cbn [time_time] in E.
  cbn [time_time snd] in Hfind. rewrite E in Hfind. cbn [option_map fst] in Hfind.
  apply pow_mining_sound in E'.
  destruct E' as (k & _ & _ & Hc & Hd & Hm & Hmin & _).
  destruct r as [[[nonce hash_content] hash_value] elapsed].
  cbn [res_nonce res_content res_digest fst snd] in *.
  exists nonce, hash_content, hash_value.
  assert (Hd' : hash_value = SHA256.hexdigest (encode hash_content)).
  { rewrite Hd, Hc. reflexivity. }
  split; [exact Hfind|]. split.
  { destruct (N.le_gt_cases nonce c) as [H|H]; [exact H|].
    specialize (Hmin c H). congruence. }
  split; [exact Hc|]. split; [exact Hd'|].
  split; [rewrite Hd'; apply hexdigest_length|].
  split; [unfold meets in Hm; rewrite <- Hd in Hm; exact Hm|].
  intros n Hn. exact (Hmin n Hn).
Qed.

Lemma find_pow_hash_least_witness :
  meets "China-MY" 4 117988 = true /\
  (N.to_nat 117988 < N.to_nat 117989)%nat /\
  exists (nonce : N) (hash_content hash_value : string),
    find_pow_hash (N.to_nat 117989) "China-MY" 4
    = Some (nonce, hash_content, hash_value) /\
    (nonce <= 117988)%N /\
    hash_content = ("China-MY" ++ decimal nonce)%string /\
    hash_value = SHA256.hexdigest (encode hash_content) /\
    String.length hash_value = 64%nat /\
    startswith hash_value (str_mul "0" 4) = true /\
    forall n : N, (n < nonce)%N ->
      startswith (SHA256.hexdigest (encode ("China-MY" ++ decimal n)%string))
        (str_mul "0" 4) = false.
Proof.
  assert (H1 : meets "China-MY" 4 117988 = true) by (vm_compute; reflexivity).
  assert (H2 : (N.to_nat 117988 < N.to_nat 117989)%nat) by lia.
  split; [exact H1|]. split; [exact H2|].
  exact (find_pow_hash_least "China-MY" 4 117988 (N.to_nat 117989) H1 H2).
Defined.

